(** * failawarehttp: the retrying HTTP client of [client.go]

    A shallow embedding of [client.go] (package [http] of
    Ragnaroek/failawarehttp) and the properties of its retry loop.

    Conventions of the embedding:
    - Go's [int] and [time.Duration] are 64-bit two's complement integers;
      they are values of [Z], and every arithmetic operation of the source
      that can leave the 64-bit range is followed by [wrap64].
    - A Go panic is an explicit result ([None] for [expJitterBackOff],
      [Panicked] for [Do]).
    - Everything [Do] takes from outside (what the transport answers, how
      much of the body it reads, how long it takes, the raw value of the
      random source, how late a timer fires) is the environment [Env], one
      record per attempt index.
    - What [Do] does to the outside (sending, waiting, logging, closing the
      body) is the list of [Event]s it returns. *)

From Stdlib Require Import ZArith NArith List Bool Lia String Sorted.
Import ListNotations.
Local Open Scope Z_scope.

(** ** Machine integers *)

Module Int64.

Definition modulus : Z := 2 ^ 64.
Definition max_int : Z := 2 ^ 63 - 1.
Definition min_int : Z := - 2 ^ 63.

(** Reduction of a mathematical integer to the signed 64-bit range. *)
Definition wrap64 (z : Z) : Z := (z + 2 ^ 63) mod modulus - 2 ^ 63.

Definition add64 (a b : Z) : Z := wrap64 (a + b).
Definition sub64 (a b : Z) : Z := wrap64 (a - b).
Definition mul64 (a b : Z) : Z := wrap64 (a * b).

(** [uint(x)] for an [int] [x]. *)
Definition uint (x : Z) : Z := x mod modulus.

(** [int(1 << count)] for an unsigned [count]: the constant [1] takes the
    type [int], a shift by 64 or more gives [0], and [1 << 63] is the
    least [int]. *)
Definition shl1 (count : Z) : Z :=
  if count <? 64 then wrap64 (2 ^ count) else 0.

Definition in_range (z : Z) : Prop := min_int <= z <= max_int.

End Int64.
Import Int64.

(** ** Time *)

(** [time.Duration] counts nanoseconds. *)
Definition Nanosecond : Z := 1.
Definition Microsecond : Z := 1000 * Nanosecond.
Definition Millisecond : Z := 1000 * Microsecond.
Definition Second : Z := 1000 * Millisecond.

(** ** The random source

    [random.Intn(n)] of math/rand panics when [n <= 0] and otherwise reduces
    a raw non-negative value of the generator into [0, n).  The raw value is
    the argument [draw]. *)
Definition Intn (draw n : Z) : option Z :=
  if n <=? 0 then None else Some (draw mod n).

(** ** [expJitterBackOff] *)

Definition expJitterBackOff (draw retries backOffDelayFactor : Z) : option Z :=
  let exp := shl1 (uint retries) in
  let ms := mul64 exp (Z.quot backOffDelayFactor Millisecond) in
  let maxJitter := Z.quot ms 3 in
  match Intn draw (mul64 2 maxJitter) with
  | None => None
  | Some r =>
      let ms := add64 ms (sub64 r maxJitter) in
      let ms := if ms <=? 0 then 1 else ms in
      Some (mul64 ms Millisecond)
  end.

(** The base delay in milliseconds the source computes when nothing wraps:
    the factor is first cut down to whole milliseconds. *)
Definition baseDelay (retries backOffDelayFactor : Z) : Z :=
  2 ^ retries * Z.quot backOffDelayFactor Millisecond.

(** The largest base delay, in milliseconds, whose jittered value still fits
    a [time.Duration] in nanoseconds. *)
Definition MaxBase : Z := 6917529027641.

(** ** Options and client *)

Record FailAwareHTTPOptions := {
  MaxRetries : Z;
  Timeout : Z;
  BackOffDelayFactor : Z;
  KeepLog : bool
}.

Definition NewDefaultOptions : FailAwareHTTPOptions :=
  {| MaxRetries := 3;
     Timeout := 1 * Second;
     BackOffDelayFactor := 1 * Second;
     KeepLog := false |}.

Definition defaultOptions : FailAwareHTTPOptions := NewDefaultOptions.

Definition nullOptions : FailAwareHTTPOptions :=
  {| MaxRetries := 0; Timeout := 0; BackOffDelayFactor := 0; KeepLog := false |}.

(** The part of [http.Client] the source sets. *)
Record HttpClient := { ClientTimeout : Z }.

Record FailAwareHTTPClient := {
  httpClient : HttpClient;
  options : FailAwareHTTPOptions
}.

Definition NewClient (opts : FailAwareHTTPOptions) : FailAwareHTTPClient :=
  let timeout :=
    if Timeout opts =? Timeout nullOptions
    then Timeout defaultOptions else Timeout opts in
  let maxRetries :=
    if MaxRetries opts =? MaxRetries nullOptions
    then MaxRetries defaultOptions else MaxRetries opts in
  let backOffDelay :=
    if BackOffDelayFactor opts =? BackOffDelayFactor nullOptions
    then BackOffDelayFactor defaultOptions else BackOffDelayFactor opts in
  let effectiveOptions :=
    {| Timeout := timeout;
       MaxRetries := maxRetries;
       BackOffDelayFactor := backOffDelay;
       KeepLog := KeepLog opts |} in
  {| httpClient := {| ClientTimeout := Timeout effectiveOptions |};
     options := effectiveOptions |}.

Definition NewDefaultClient : FailAwareHTTPClient := NewClient defaultOptions.

(** ** Requests, responses and errors *)

(** Errors of the io and net/http libraries are opaque messages. *)
Definition rawError : Type := string.

Record Response := { StatusCode : Z }.

(** A request body ([io.ReadCloser]): the bytes behind it, the read offset,
    and the error a read meets in place of the end of the data, if any. *)
Record Body := {
  rd_buf : list Byte.byte;
  rd_off : nat;
  rd_fail : option rawError
}.

(** [ioutil.NopCloser(bytes.NewBuffer(buf))]: a reader of its own over
    [buf], at offset zero, which never fails. *)
Definition NewBuffer (buf : list Byte.byte) : Body :=
  {| rd_buf := buf; rd_off := 0; rd_fail := None |}.

(** The bytes a reader still has to give. *)
Definition remaining (b : Body) : list Byte.byte := skipn (rd_off b) (rd_buf b).

(** [ioutil.ReadAll]: the data up to the end or up to the failure. *)
Definition ReadAll (b : Body) : list Byte.byte * option rawError :=
  (remaining b, rd_fail b).

(** Reading moves the offset of the reader, never past the data. *)
Definition consume (n : nat) (b : Body) : Body :=
  {| rd_buf := rd_buf b;
     rd_off := Nat.min (List.length (rd_buf b)) (rd_off b + n);
     rd_fail := rd_fail b |}.

Definition drain (b : Body) : Body := consume (List.length (rd_buf b)) b.

Record Request := {
  Method : string;
  URL : string;
  ReqBody : option Body
}.

(** The bytes a transport sends for a request body handed to it. *)
Definition bytesSent (body : option Body) : list Byte.byte :=
  match body with
  | Some b => remaining b
  | None => []
  end.

Record ErrEntry := {
  err : option rawError;
  response : option Response;
  timestampStarted : Z;
  timestampFinished : Z
}.

(** [now] is the value of [time.Now()] at the call. *)
Definition errEntryNow (e : option rawError) (rsp : option Response)
    (started now : Z) : ErrEntry :=
  {| err := e; response := rsp;
     timestampStarted := started; timestampFinished := now |}.

Record FailAwareHTTPError := {
  Retries : Z;
  Errors : list ErrEntry;
  LastError : option rawError
}.

(** The values of Go's [error] that [Do] returns. *)
Inductive DoError :=
| IOError (e : rawError)
| FailAware (f : FailAwareHTTPError).

Definition readBody (body : option Body) : option (list Byte.byte) * option rawError :=
  match body with
  | None => (None, None)
  | Some b =>
      let (strBody, e) := ReadAll b in
      match e with
      | Some e => (None, Some e)
      | None => (Some strBody, None)
      end
  end.

(** ** The environment of one call *)

(** What [c.httpClient.Do] gives back: net/http returns a response whenever
    it returns no error. *)
Inductive Outcome :=
| Responded (r : Response)
| Failed (r : option Response) (e : rawError).

Definition resp_of (o : Outcome) : option Response :=
  match o with
  | Responded r => Some r
  | Failed r _ => r
  end.

Definition err_of (o : Outcome) : option rawError :=
  match o with
  | Responded _ => None
  | Failed _ e => Some e
  end.

Record Attempt := {
  outcome : Outcome;     (* the answer of the transport *)
  consumed : nat;        (* bytes of the body the transport read *)
  elapsed : N;           (* time the transport took *)
  draw : Z;              (* raw value of the random source *)
  overshoot : N          (* lateness of the timer of the wait *)
}.

Definition Env : Type := Z -> Attempt.

Inductive Event :=
| EvSend (retried : Z) (body : option Body)   (* c.httpClient.Do *)
| EvWait (retried : Z) (d : Z)                (* <-time.After(d) *)
| EvDebug (n : Z) (d : Z)                     (* log.Debugf *)
| EvClose.                                    (* originalReq.Body.Close() *)

Inductive Result :=
| Returned (resp : option Response) (e : option DoError)
| Panicked
| OutOfFuel.

(** ** [Do] *)

Record LoopState := {
  reqBody : option Body;             (* originalReq.Body *)
  lastResponse : option Response;
  lastError : option rawError;
  errLog : list ErrEntry;
  clock : Z
}.

(** The condition of the [if] that ends the loop; [None] is the
    dereference of a nil response. *)
Definition terminal (lastResponse : option Response)
    (lastError : option rawError) : option bool :=
  match lastError with
  | Some _ => Some false
  | None =>
      match lastResponse with
      | Some r => Some ((StatusCode r <? 500) && negb (StatusCode r =? 429))
      | None => None
      end
  end.

(** [if lastError == nil { return lastResponse, nil }] followed by
    [return lastResponse, FailAwareHTTPError{...}]: the source has this pair
    of statements twice, inside the [if] that ends the loop and after the
    loop. *)
Definition resultOf (retried : Z) (st : LoopState) : Result :=
  match lastError st with
  | None => Returned (lastResponse st) None
  | Some _ =>
      Returned (lastResponse st)
        (Some (FailAware {| Retries := retried;
                            Errors := errLog st;
                            LastError := lastError st |}))
  end.

(** The body an attempt sends: if the body was captured,
    [originalReq.Body] is replaced by a reader over the captured bytes;
    otherwise it is left as it is. *)
Definition bodyFor (originalBody : option (list Byte.byte)) (st : LoopState)
    : option Body :=
  match originalBody with
  | Some b => Some (NewBuffer b)
  | None => reqBody st
  end.

Section RetryLoop.

Variable c : FailAwareHTTPClient.
Variable env : Env.
Variable originalBody : option (list Byte.byte).

(** The state after [c.httpClient.Do] and the append to the log. *)
Definition afterSend (retried : Z) (body : option Body) (st : LoopState)
    : LoopState :=
  let a := env retried in
  let started := clock st in
  let finished := started + Z.of_N (elapsed a) in
  let rsp := resp_of (outcome a) in
  let e := err_of (outcome a) in
  {| reqBody := option_map (consume (consumed a)) body;
     lastResponse := rsp;
     lastError := e;
     errLog := if KeepLog (options c)
               then errLog st ++ [errEntryNow e rsp started finished]
               else errLog st;
     clock := finished |}.

(** The state after [<-time.After(jitter)]. *)
Definition afterWait (retried jitter : Z) (st : LoopState) : LoopState :=
  {| reqBody := reqBody st;
     lastResponse := lastResponse st;
     lastError := lastError st;
     errLog := errLog st;
     clock := clock st + Z.max 0 jitter + Z.of_N (overshoot (env retried)) |}.

(** The [for] loop of [Do] and the code after it.  [retried] never
    wraps: it stays below [MaxRetries]. *)
Fixpoint retryLoop (fuel : nat) (retried : Z) (st : LoopState)
    : Result * list Event * LoopState :=
  if retried <? MaxRetries (options c) then
    match fuel with
    | O => (OutOfFuel, [], st)
    | S fuel' =>
        let body := bodyFor originalBody st in
        let st1 := afterSend retried body st in
        match terminal (lastResponse st1) (lastError st1) with
        | None => (Panicked, [EvSend retried body], st1)
        | Some true =>
            (resultOf retried st1, [EvSend retried body], st1)
        | Some false =>
            match expJitterBackOff (draw (env retried)) retried
                    (BackOffDelayFactor (options c)) with
            | None => (Panicked, [EvSend retried body], st1)
            | Some jitter =>
                let st2 := afterWait retried jitter st1 in
                let '(res, evs, st3) := retryLoop fuel' (retried + 1) st2 in
                (res,
                 EvSend retried body :: EvWait retried jitter
                   :: EvDebug (retried + 1) jitter :: evs,
                 st3)
            end
        end
    end
  else (resultOf retried st, [], st).

End RetryLoop.

(** The deferred function: [Close] on the reader [originalReq.Body] holds
    when [Do] ends, if it holds one.  That is the caller's reader only as
    long as no attempt replaced it. *)
Definition closeBody (body : option Body) : list Event :=
  match body with
  | Some _ => [EvClose]
  | None => []
  end.

(** [now] is the time of the call. *)
Definition Do (c : FailAwareHTTPClient) (env : Env) (now : Z)
    (originalReq : Request) : Result * list Event :=
  let (originalBody, e) := readBody (ReqBody originalReq) in
  let body := option_map drain (ReqBody originalReq) in
  match e with
  | Some e => (Returned None (Some (IOError e)), closeBody body)
  | None =>
      let st0 := {| reqBody := body; lastResponse := None; lastError := None;
                    errLog := []; clock := now |} in
      let '(res, evs, st) :=
        retryLoop c env originalBody (Z.to_nat (MaxRetries (options c))) 0 st0 in
      (res, evs ++ closeBody (reqBody st))
  end.

(** ** Vocabulary of the statements *)

(** The classification of an outcome by the condition of the loop. *)
Definition classify (o : Outcome) : option bool :=
  terminal (resp_of o) (err_of o).

Definition retryable (o : Outcome) : Prop := classify o = Some false.

(** The backoff of every attempt index below [MaxRetries] stays within the
    64-bit range and is at least three milliseconds before the jitter. *)
Definition backOffInRange (c : FailAwareHTTPClient) : Prop :=
  3 <= Z.quot (BackOffDelayFactor (options c)) Millisecond
  /\ baseDelay (MaxRetries (options c) - 1) (BackOffDelayFactor (options c))
     <= MaxBase.

Definition attemptAt (i : Z) (evs : list Event) : Prop :=
  exists body, In (EvSend i body) evs.

Definition waitAfter (i : Z) (evs : list Event) : Prop :=
  exists d, In (EvWait i d) evs.

Definition isSend (e : Event) : bool :=
  match e with EvSend _ _ => true | _ => false end.

Definition isWait (e : Event) : bool :=
  match e with EvWait _ _ => true | _ => false end.

(** A log written from time [t] on: the attempts started one after the
    other, none before [t], and each finished no earlier than it started. *)
Definition logFrom (t : Z) (l : list ErrEntry) : Prop :=
  StronglySorted Z.lt (map timestampStarted l)
  /\ Forall (fun e => t <= timestampStarted e <= timestampFinished e) l.

(** The entries of a log are those of the attempts [r], [r + 1], ... *)
Fixpoint logOf (env : Env) (r : Z) (l : list ErrEntry) : Prop :=
  match l with
  | [] => True
  | e :: l' =>
      err e = err_of (outcome (env r))
      /\ response e = resp_of (outcome (env r))
      /\ logOf env (r + 1) l'
  end.

(** What a run of the loop entered at index [r] in state [st] comes to
    when the attempts from [r] on are all retryable: the code after the
    loop builds the result from the last attempt, there were as many
    attempts and waits as indices left, and the log grew by their entries. *)
Definition exhaustedRun (c : FailAwareHTTPClient) (env : Env) (r : Z)
    (st : LoopState) (x : Result * list Event * LoopState) : Prop :=
  let N := MaxRetries (options c) in
  let '(res, evs, st') := x in
  res = resultOf N st'
  /\ (r = N -> st' = st)
  /\ (r < N -> lastResponse st' = resp_of (outcome (env (N - 1)))
               /\ lastError st' = err_of (outcome (env (N - 1))))
  /\ List.length (filter isSend evs) = Z.to_nat (N - r)
  /\ List.length (filter isWait evs) = Z.to_nat (N - r)
  /\ (forall i, r <= i < N -> attemptAt i evs /\ waitAfter i evs)
  /\ exists l,
       errLog st' = errLog st ++ l
       /\ List.length l
          = (if KeepLog (options c) then Z.to_nat (N - r) else 0%nat)
       /\ logFrom (clock st) l
       /\ logOf env r l.

(** An environment whose transport answers every attempt the same way,
    after reading two bytes of the body and taking a microsecond. *)
Definition constEnv (o : Outcome) : Env :=
  fun _ => {| outcome := o; consumed := 2; elapsed := 1000; draw := 0;
              overshoot := 0 |}.

Definition request (body : option Body) : Request :=
  {| Method := "POST"%string;
     URL := "http://localhost/doesNotExist"%string;
     ReqBody := body |}.

(** ** Sample inputs *)

(** The options of the tests of the repository. *)
Definition optionsWithMinTimeouts : FailAwareHTTPOptions :=
  {| MaxRetries := 3;
     Timeout := 10 * Millisecond;
     BackOffDelayFactor := 5 * Millisecond;
     KeepLog := true |}.

(** A single attempt, with the log kept. *)
Definition optionsOneAttempt (factor : Z) : FailAwareHTTPOptions :=
  {| MaxRetries := 1;
     Timeout := 10 * Millisecond;
     BackOffDelayFactor := factor;
     KeepLog := true |}.

Definition dialError : rawError := "dial tcp: connection refused"%string.
Definition contextCanceled : rawError := "context canceled"%string.
Definition unexpectedEOF : rawError := "unexpected EOF"%string.

(** The bytes of the string dummyBody. *)
Definition dummyBytes : list Byte.byte :=
  [Byte.x64; Byte.x75; Byte.x6d; Byte.x6d; Byte.x79;
   Byte.x42; Byte.x6f; Byte.x64; Byte.x79].

Definition dummyBody : Body := NewBuffer dummyBytes.

(** A body whose read fails after two bytes. *)
Definition brokenBody : Body :=
  {| rd_buf := [Byte.x64; Byte.x75]; rd_off := 0; rd_fail := Some unexpectedEOF |}.

(** ** The rest of [client.go] *)

(** The levels of logrus. *)
Inductive Level :=
| PanicLevel | FatalLevel | ErrorLevel | WarnLevel
| InfoLevel | DebugLevel | TraceLevel.

(** [logLevel], as a function of the value [os.Getenv] gives for LOG_LEVEL
    (the empty string when the variable is not set); [None] is the panic
    after the [switch]. *)
Definition logLevel (logEnv : string) : option Level :=
  if String.eqb logEnv EmptyString then Some ErrorLevel
  else if String.eqb logEnv "panic" then Some PanicLevel
  else if String.eqb logEnv "fatal" then Some FatalLevel
  else if String.eqb logEnv "error" then Some ErrorLevel
  else if String.eqb logEnv "warn" then Some WarnLevel
  else if String.eqb logEnv "info" then Some InfoLevel
  else if String.eqb logEnv "debug" then Some DebugLevel
  else if String.eqb logEnv "trace" then Some TraceLevel
  else None.

(** The names the [switch] of [logLevel] knows. *)
Definition levelNames : list string :=
  [EmptyString; "panic"; "fatal"; "error"; "warn"; "info"; "debug"; "trace"]%string.



(** ** Vocabulary of the further statements *)

(** The sum of the durations [Do] hands to [time.After]; a wait lasts at
    least the duration it was given, so this is a lower bound of the time
    spent waiting, not that time. *)
Fixpoint requestedWait (evs : list Event) : Z :=
  match evs with
  | [] => 0
  | EvWait _ d :: evs' => d + requestedWait evs'
  | _ :: evs' => requestedWait evs'
  end.

(** The attempts and waits of a run, in the order in which they happen. *)
Inductive Step :=
| Attempted (i : Z)
| Waited (i : Z).

Fixpoint steps (evs : list Event) : list Step :=
  match evs with
  | [] => []
  | EvSend i _ :: evs' => Attempted i :: steps evs'
  | EvWait i _ :: evs' => Waited i :: steps evs'
  | _ :: evs' => steps evs'
  end.

(** Attempt [r], wait [r], attempt [r + 1], wait [r + 1], ... for [n]
    indices. *)
Fixpoint schedule (n : nat) (r : Z) : list Step :=
  match n with
  | O => []
  | S n' => Attempted r :: Waited r :: schedule n' (r + 1)
  end.


(** The client with another [KeepLog]. *)
Definition setKeepLog (k : bool) (c : FailAwareHTTPClient)
    : FailAwareHTTPClient :=
  {| httpClient := httpClient c;
     options := {| MaxRetries := MaxRetries (options c);
                   Timeout := Timeout (options c);
                   BackOffDelayFactor := BackOffDelayFactor (options c);
                   KeepLog := k |} |}.

(** The least backoff of an attempt index, in nanoseconds. *)
Definition minDelay (retries backOffDelayFactor : Z) : Z :=
  (baseDelay retries backOffDelayFactor
   - Z.quot (baseDelay retries backOffDelayFactor) 3) * Millisecond.

(** Between the end of an attempt of the log and the start of the next
    lies at least the least backoff of its index; [r] is the index of the
    first entry. *)
Fixpoint logSpaced (factor : Z) (r : Z) (l : list ErrEntry) : Prop :=
  match l with
  | e1 :: l' =>
      match l' with
      | e2 :: _ =>
          timestampFinished e1 + minDelay r factor <= timestampStarted e2
      | [] => True
      end
      /\ logSpaced factor (r + 1) l'
  | [] => True
  end.

(** A result without its log. *)
Definition dropLog (res : Result) : Result :=
  match res with
  | Returned rsp (Some (FailAware f)) =>
      Returned rsp
        (Some (FailAware {| Retries := Retries f; Errors := [];
                            LastError := LastError f |}))
  | _ => res
  end.

(** A state of the loop without its log. *)
Definition dropStateLog (st : LoopState) : LoopState :=
  {| reqBody := reqBody st;
     lastResponse := lastResponse st;
     lastError := lastError st;
     errLog := [];
     clock := clock st |}.

(** What the loop has seen when it enters index [r] in state [st]: nothing
    yet at index 0; later, the outcome of attempt [r - 1], which like all
    attempts before it was retryable and followed by its backoff, and one
    log entry per attempt if the log is kept. *)
Definition entered (c : FailAwareHTTPClient) (env : Env) (r : Z)
    (st : LoopState) : Prop :=
  0 <= r
  /\ (r = 0 -> lastResponse st = None /\ lastError st = None)
  /\ (0 < r ->
      r <= MaxRetries (options c)
      /\ lastResponse st = resp_of (outcome (env (r - 1)))
      /\ lastError st = err_of (outcome (env (r - 1))))
  /\ (forall i, 0 <= i < r ->
        retryable (outcome (env i))
        /\ expJitterBackOff (draw (env i)) i (BackOffDelayFactor (options c))
           <> None)
  /\ List.length (errLog st)
     = (if KeepLog (options c) then Z.to_nat r else 0%nat).

(** What a result of the loop tells about the attempts: a failure tells
    that all [MaxRetries] attempts were retryable and followed by their
    backoff; a nil error tells that the response is that of an attempt
    without an error, which ended the loop or was the last; a panic tells
    that the backoff of a retryable attempt is undefined. *)
Definition resultTells (c : FailAwareHTTPClient) (env : Env) (res : Result)
    : Prop :=
  let N := MaxRetries (options c) in
  let factor := BackOffDelayFactor (options c) in
  (forall rsp f, res = Returned rsp (Some (FailAware f)) ->
     1 <= N /\ Retries f = N
     /\ rsp = resp_of (outcome (env (N - 1)))
     /\ LastError f = err_of (outcome (env (N - 1)))
     /\ LastError f <> None
     /\ (forall i, 0 <= i < N ->
           retryable (outcome (env i))
           /\ expJitterBackOff (draw (env i)) i factor <> None)
     /\ List.length (Errors f)
        = (if KeepLog (options c) then Z.to_nat N else 0%nat))
  /\ (forall rsp, res = Returned rsp None ->
        (N <= 0 /\ rsp = None)
        \/ exists k rsp',
             0 <= k < N /\ outcome (env k) = Responded rsp'
             /\ rsp = Some rsp'
             /\ (forall i, 0 <= i < k -> retryable (outcome (env i)))
             /\ (classify (outcome (env k)) = Some true
                 \/ (k = N - 1
                     /\ forall i, 0 <= i < N ->
                          retryable (outcome (env i))
                          /\ expJitterBackOff (draw (env i)) i factor
                             <> None)))
  /\ (res = Panicked ->
        exists k,
          0 <= k < N
          /\ (forall i, 0 <= i <= k -> retryable (outcome (env i)))
          /\ expJitterBackOff (draw (env k)) k factor = None).

(** Sample inputs. *)
Definition optionsThreeMs : FailAwareHTTPOptions :=
  {| MaxRetries := 2;
     Timeout := 10 * Millisecond;
     BackOffDelayFactor := 3 * Millisecond;
     KeepLog := false |}.


(** * Properties *)

(** ** Machine integers *)

Lemma wrap64_small z : in_range z -> wrap64 z = z.
Proof.
  unfold in_range, min_int, max_int, wrap64, modulus. intros H.
  rewrite Z.mod_small; lia.
Qed.

Lemma pow2_63 : 2 ^ 63 = 9223372036854775808.
Proof. reflexivity. Qed.

Ltac no_wrap :=
  apply wrap64_small;
  unfold in_range, min_int, max_int, MaxBase, Millisecond, Microsecond,
    Nanosecond in *;
  rewrite ?pow2_63 in *; lia.

(** ** Arithmetic of the backoff when nothing wraps *)

Section BackOffRange.

Variables retries backOffDelayFactor : Z.
Hypothesis retries_nonneg : 0 <= retries.
Hypothesis base_range : 3 <= baseDelay retries backOffDelayFactor <= MaxBase.

Let base := baseDelay retries backOffDelayFactor.

Lemma retries_small : retries < 63.
Proof using retries_nonneg base_range.
  destruct (Z_lt_le_dec retries 63) as [|Hge]; [assumption|exfalso].
  pose proof (Z.pow_le_mono_r 2 63 retries ltac:(lia) Hge) as Hp.
  unfold baseDelay, MaxBase in base_range.
  assert (1 <= Z.quot backOffDelayFactor Millisecond) by nia.
  rewrite pow2_63 in Hp. nia.
Qed.

Lemma pow2_retries_range : 1 <= 2 ^ retries < 2 ^ 63.
Proof using retries_nonneg base_range.
  pose proof retries_small.
  split.
  - pose proof (Z.pow_pos_nonneg 2 retries ltac:(lia) retries_nonneg). lia.
  - apply Z.pow_lt_mono_r; lia.
Qed.

Lemma exp_no_wrap : shl1 (uint retries) = 2 ^ retries.
Proof using retries_nonneg base_range.
  pose proof retries_small. pose proof pow2_retries_range as Hp.
  unfold uint, shl1, modulus.
  rewrite Z.mod_small
    by (split; [lia|]; apply Z.lt_trans with 63; [lia|reflexivity]).
  destruct (Z.ltb_spec retries 64); [|lia].
  no_wrap.
Qed.

Lemma ms_no_wrap :
  mul64 (shl1 (uint retries)) (Z.quot backOffDelayFactor Millisecond) = base.
Proof using retries_nonneg base_range.
  rewrite exp_no_wrap. unfold mul64.
  change (2 ^ retries * Z.quot backOffDelayFactor Millisecond) with base.
  unfold base in *. no_wrap.
Qed.

Lemma maxJitter_range : 1 <= Z.quot base 3 /\ 3 * Z.quot base 3 <= base.
Proof using base_range.
  unfold base. rewrite Z.quot_div_nonneg by lia.
  pose proof (Z.div_mod (baseDelay retries backOffDelayFactor) 3 ltac:(lia)).
  pose proof (Z.mod_pos_bound (baseDelay retries backOffDelayFactor) 3 ltac:(lia)).
  lia.
Qed.

(** Without wrap-around the source computes [base + (r - maxJitter)] with
    [r] the value of [Intn], and the clamp at [ms <= 0] does not fire. *)
Lemma expJitterBackOff_no_wrap draw :
  expJitterBackOff draw retries backOffDelayFactor
  = Some ((base + (draw mod (2 * Z.quot base 3) - Z.quot base 3)) * Millisecond).
Proof using retries_nonneg base_range.
  unfold expJitterBackOff. rewrite ms_no_wrap.
  pose proof maxJitter_range as [Hj1 Hj3].
  assert (Hb : base <= MaxBase) by (unfold base; lia).
  set (mj := Z.quot base 3) in *.
  assert (Hm2 : mul64 2 mj = 2 * mj) by no_wrap.
  rewrite Hm2. unfold Intn.
  destruct (Z.leb_spec (2 * mj) 0); [lia|].
  pose proof (Z.mod_pos_bound draw (2 * mj) ltac:(lia)) as Hr.
  set (r := draw mod (2 * mj)) in *.
  assert (Hs : sub64 r mj = r - mj) by no_wrap.
  rewrite Hs.
  assert (Ha : add64 base (r - mj) = base + (r - mj)) by no_wrap.
  rewrite Ha.
  destruct (Z.leb_spec (base + (r - mj)) 0); [lia|].
  f_equal. no_wrap.
Qed.

(** The delay is defined and positive. *)
Lemma expJitterBackOff_positive draw :
  exists d, expJitterBackOff draw retries backOffDelayFactor = Some d /\ 0 < d.
Proof using retries_nonneg base_range.
  rewrite expJitterBackOff_no_wrap. eexists. split; [reflexivity|].
  pose proof maxJitter_range as [Hj1 Hj3].
  pose proof (Z.mod_pos_bound draw (2 * Z.quot base 3) ltac:(lia)).
  unfold Millisecond, Microsecond, Nanosecond. lia.
Qed.

End BackOffRange.

Example expJitterBackOff_5ms_first :
  expJitterBackOff 0 0 (5 * Millisecond) = Some (4 * Millisecond).
Proof. reflexivity. Qed.

Example expJitterBackOff_5ms_third :
  expJitterBackOff 11 2 (5 * Millisecond) = Some (25 * Millisecond).
Proof. reflexivity. Qed.

(** C4, as amended.  For an attempt index [i >= 0] and a factor whose base
    delay [base = 2^i * (factor cut down to whole milliseconds)] is at
    least 3 ms and small enough for 64-bit nanoseconds, the calculator
    returns [base + jitter] milliseconds with [maxJitter = base / 3]
    (truncating) and [jitter = Intn(2 * maxJitter) - maxJitter], drawn
    uniformly from [-maxJitter, maxJitter): each value of the interval is
    the jitter of exactly one value of the range of [Intn], and of exactly
    one raw value of the random source among any [2 * maxJitter] raw values
    in a row.  The result lies within [base - base/3, base + base/3] and is
    positive, so that the floor is not applied. *)
Theorem backoff_is_base_plus_jitter (draw i factor : Z) :
  0 <= i ->
  3 <= baseDelay i factor <= MaxBase ->
  let base := baseDelay i factor in
  let maxJitter := Z.quot base 3 in
  (exists jitter,
      expJitterBackOff draw i factor = Some ((base + jitter) * Millisecond)
      /\ Intn draw (2 * maxJitter) = Some (jitter + maxJitter)
      /\ - maxJitter <= jitter < maxJitter
      /\ base - Z.quot base 3 <= base + jitter <= base + Z.quot base 3
      /\ 0 < base + jitter)
  /\ (forall j draw', - maxJitter <= j < maxJitter ->
        (expJitterBackOff draw' i factor = Some ((base + j) * Millisecond)
         <-> Intn draw' (2 * maxJitter) = Some (j + maxJitter)))
  /\ (forall j s, - maxJitter <= j < maxJitter ->
        exists! draw',
          s <= draw' < s + 2 * maxJitter
          /\ expJitterBackOff draw' i factor = Some ((base + j) * Millisecond)).
Proof.
  intros Hi Hb base maxJitter.
  pose proof (maxJitter_range i factor Hb) as [Hj1 Hj3].
  fold base in Hj1, Hj3. fold maxJitter in Hj1, Hj3.
  assert (Hiff : forall j d, - maxJitter <= j < maxJitter ->
            (expJitterBackOff d i factor = Some ((base + j) * Millisecond)
             <-> d mod (2 * maxJitter) = j + maxJitter)).
  { intros j d Hj. rewrite expJitterBackOff_no_wrap by assumption.
    fold base. fold maxJitter. set (r := d mod (2 * maxJitter)).
    split; intros H.
    - assert (E : (base + (r - maxJitter)) * Millisecond
                  = (base + j) * Millisecond) by congruence.
      unfold Millisecond, Microsecond, Nanosecond in E. lia.
    - rewrite H. do 2 f_equal. lia. }
  split; [|split].
  - exists (draw mod (2 * maxJitter) - maxJitter).
    pose proof (Z.mod_pos_bound draw (2 * maxJitter) ltac:(lia)) as Hr.
    split; [apply expJitterBackOff_no_wrap; assumption|].
    split.
    { unfold Intn. destruct (Z.leb_spec (2 * maxJitter) 0); [lia|].
      f_equal. lia. }
    fold maxJitter. lia.
  - intros j d Hj. rewrite (Hiff j d Hj). unfold Intn.
    destruct (Z.leb_spec (2 * maxJitter) 0); [lia|].
    split; [intros ->; reflexivity|congruence].
  - intros j s Hj.
    set (n := 2 * maxJitter) in *.
    exists (s + (j + maxJitter - s) mod n).
    pose proof (Z.mod_pos_bound (j + maxJitter - s) n ltac:(lia)) as Hm.
    split.
    + split; [lia|]. apply Hiff; [assumption|]. fold n.
      rewrite Z.add_mod_idemp_r by lia.
      replace (s + (j + maxJitter - s)) with (j + maxJitter) by lia.
      apply Z.mod_small. lia.
    + intros d [Hd Hres]. apply (Hiff j d Hj) in Hres. fold n in Hres.
      assert (H0 : (s + (j + maxJitter - s) mod n) mod n = j + maxJitter).
      { rewrite Z.add_mod_idemp_r by lia.
        replace (s + (j + maxJitter - s)) with (j + maxJitter) by lia.
        apply Z.mod_small. lia. }
      set (d0 := s + (j + maxJitter - s) mod n) in *.
      pose proof (Z.div_mod d n ltac:(lia)) as E1.
      pose proof (Z.div_mod d0 n ltac:(lia)) as E0.
      rewrite Hres in E1. rewrite H0 in E0.
      assert (Hq : d / n = d0 / n) by nia.
      rewrite Hq in E1. lia.
Qed.

Lemma backoff_is_base_plus_jitter_witness :
  (exists jitter,
     expJitterBackOff 11 2 (5 * Millisecond)
     = Some ((baseDelay 2 (5 * Millisecond) + jitter) * Millisecond)
     /\ - 6 <= jitter < 6)
  /\ (exists! draw',
        100 <= draw' < 100 + 12
        /\ expJitterBackOff draw' 2 (5 * Millisecond) = Some (25 * Millisecond)).
Proof.
  destruct (backoff_is_base_plus_jitter 11 2 (5 * Millisecond))
    as ([j H] & _ & Hu).
  - lia.
  - vm_compute. split; discriminate.
  - split.
    + exists j. destruct H as (H1 & _ & H3 & _). split; [exact H1|exact H3].
    + apply (Hu 5 100). vm_compute. split; [discriminate|reflexivity].
Defined.

(** C4, as stated, fails for a factor that is not a whole number of
    milliseconds: with a factor of 3.5 ms the first backoff can be 2 ms,
    which is no [2^0 * factor + jitter] for a jitter of
    [-factor/3, factor/3). *)
Lemma backoff_submillisecond_factor_counterexample :
  expJitterBackOff 0 0 3500000 = Some 2000000
  /\ ~ (exists jitter,
          expJitterBackOff 0 0 3500000 = Some (2 ^ 0 * 3500000 + jitter)
          /\ - Z.quot (2 ^ 0 * 3500000) 3 <= jitter
             < Z.quot (2 ^ 0 * 3500000) 3).
Proof.
  split; [reflexivity|].
  intros (jitter & H & Hj).
  assert (E : expJitterBackOff 0 0 3500000 = Some 2000000) by reflexivity.
  assert (Eq : Z.quot (2 ^ 0 * 3500000) 3 = 1166666) by reflexivity.
  assert (Eb : 2 ^ 0 * 3500000 = 3500000) by reflexivity.
  rewrite E, Eb in H. rewrite Eq in Hj.
  assert (H' : 2000000 = 3500000 + jitter) by congruence.
  lia.
Qed.

(** C5, at the failing inputs.  For every factor below three milliseconds
    the backoff of the first attempt hands [Intn] the bound [0] and panics:
    no duration is returned and the clamp to one millisecond is not
    reached. *)
Theorem backoff_panics_below_three_ms (draw factor : Z) :
  0 <= factor < 3 * Millisecond ->
  expJitterBackOff draw 0 factor = None.
Proof.
  intros Hf. unfold expJitterBackOff.
  assert (Hq : 0 <= Z.quot factor Millisecond < 3).
  { unfold Millisecond, Microsecond, Nanosecond in *.
    split; [apply Z.quot_pos; lia|apply Z.quot_lt_upper_bound; lia]. }
  change (shl1 (uint 0)) with 1.
  assert (Hm : mul64 1 (Z.quot factor Millisecond) = Z.quot factor Millisecond)
    by (unfold mul64; rewrite Z.mul_1_l; no_wrap).
  rewrite Hm.
  assert (Hz : Z.quot (Z.quot factor Millisecond) 3 = 0)
    by (apply Z.quot_small; lia).
  rewrite Hz. reflexivity.
Qed.

Lemma backoff_panics_below_three_ms_witness :
  expJitterBackOff 0 0 (500 * Microsecond) = None
  /\ expJitterBackOff 7 0 (1 * Millisecond) = None.
Proof.
  split; apply backoff_panics_below_three_ms;
    unfold Millisecond, Microsecond, Nanosecond; lia.
Defined.

(** ** The classification of an outcome *)

Lemma classify_true_iff (o : Outcome) :
  classify o = Some true
  <-> err_of o = None
      /\ exists rsp, resp_of o = Some rsp
                     /\ StatusCode rsp < 500 /\ StatusCode rsp <> 429.
Proof.
  destruct o as [rsp|rsp e]; unfold classify; simpl.
  - split.
    + intros H. injection H as H. apply andb_true_iff in H as [H1 H2].
      apply Z.ltb_lt in H1. apply negb_true_iff, Z.eqb_neq in H2.
      split; [reflexivity|]. exists rsp. auto.
    + intros (_ & rsp' & E & H1 & H2). injection E as <-. f_equal.
      apply andb_true_iff. split.
      * apply Z.ltb_lt. assumption.
      * apply negb_true_iff, Z.eqb_neq. assumption.
  - split; [discriminate|]. intros (E & _). discriminate.
Qed.

Lemma classify_false_iff (o : Outcome) :
  classify o = Some false
  <-> err_of o <> None
      \/ exists rsp, resp_of o = Some rsp
                     /\ (500 <= StatusCode rsp \/ StatusCode rsp = 429).
Proof.
  destruct o as [rsp|rsp e]; unfold classify; simpl.
  - split.
    + intros H. injection H as H. right. exists rsp. split; [reflexivity|].
      apply andb_false_iff in H as [H|H].
      * apply Z.ltb_ge in H. auto.
      * apply negb_false_iff, Z.eqb_eq in H. auto.
    + intros [H|(rsp' & E & H)]; [congruence|]. injection E as <-. f_equal.
      apply andb_false_iff. destruct H as [H|H].
      * left. apply Z.ltb_ge. assumption.
      * right. apply negb_false_iff, Z.eqb_eq. assumption.
  - split; [|reflexivity]. intros _. left. discriminate.
Qed.

Lemma classify_total (o : Outcome) :
  classify o = Some true \/ classify o = Some false.
Proof.
  destruct o as [rsp|rsp e]; unfold classify; simpl.
  - destruct ((StatusCode rsp <? 500) && negb (StatusCode rsp =? 429)); auto.
  - auto.
Qed.

(** ** The loop, one iteration at a time *)

Section LoopFacts.

Variable c : FailAwareHTTPClient.
Variable env : Env.
Variable originalBody : option (list Byte.byte).

Let N := MaxRetries (options c).
Let factor := BackOffDelayFactor (options c).

Lemma retryLoop_exit fuel r st :
  N <= r -> retryLoop c env originalBody fuel r st = (resultOf r st, [], st).
Proof using Type.
  intros H. destruct fuel; simpl; fold N;
    destruct (Z.ltb_spec r N); try lia; reflexivity.
Qed.

Lemma retryLoop_iter fuel r st :
  r < N ->
  retryLoop c env originalBody (S fuel) r st
  = let body := bodyFor originalBody st in
    let st1 := afterSend c env r body st in
    match classify (outcome (env r)) with
    | None => (Panicked, [EvSend r body], st1)
    | Some true => (resultOf r st1, [EvSend r body], st1)
    | Some false =>
        match expJitterBackOff (draw (env r)) r factor with
        | None => (Panicked, [EvSend r body], st1)
        | Some jitter =>
            let '(res, evs, st3) :=
              retryLoop c env originalBody fuel (r + 1)
                (afterWait env r jitter st1) in
            (res,
             EvSend r body :: EvWait r jitter :: EvDebug (r + 1) jitter :: evs,
             st3)
        end
    end.
Proof using Type.
  intros H. simpl. fold N. destruct (Z.ltb_spec r N); [|lia]. reflexivity.
Qed.

(** Induction over the iterations of the loop: a property of the runs
    that holds at the exit, at each of the returns and panics of an
    iteration, and is carried from the rest of a run over one more
    iteration, holds of every run of the loop that is given the fuel of
    the iterations left. *)
Lemma retryLoop_induction
    (P : Z -> LoopState -> Result * list Event * LoopState -> Prop) :
  (forall r st, N <= r -> P r st (resultOf r st, [], st)) ->
  (forall r st, r < N -> classify (outcome (env r)) = None ->
     P r st (Panicked, [EvSend r (bodyFor originalBody st)],
             afterSend c env r (bodyFor originalBody st) st)) ->
  (forall r st, r < N -> classify (outcome (env r)) = Some true ->
     P r st (resultOf r (afterSend c env r (bodyFor originalBody st) st),
             [EvSend r (bodyFor originalBody st)],
             afterSend c env r (bodyFor originalBody st) st)) ->
  (forall r st, r < N -> classify (outcome (env r)) = Some false ->
     expJitterBackOff (draw (env r)) r factor = None ->
     P r st (Panicked, [EvSend r (bodyFor originalBody st)],
             afterSend c env r (bodyFor originalBody st) st)) ->
  (forall r st jitter res evs st3, r < N ->
     classify (outcome (env r)) = Some false ->
     expJitterBackOff (draw (env r)) r factor = Some jitter ->
     P (r + 1) (afterWait env r jitter (afterSend c env r (bodyFor originalBody st) st))
       (res, evs, st3) ->
     P r st (res,
             EvSend r (bodyFor originalBody st) :: EvWait r jitter
               :: EvDebug (r + 1) jitter :: evs,
             st3)) ->
  forall fuel r st, (Z.to_nat (N - r) <= fuel)%nat ->
    P r st (retryLoop c env originalBody fuel r st).
Proof using Type.
  intros Hexit Hnil Hterm Hpanic Hretry.
  induction fuel as [|fuel IH]; intros r st Hfuel.
  - rewrite retryLoop_exit by lia. apply Hexit. lia.
  - destruct (Z_lt_le_dec r N) as [Hr|Hr].
    + rewrite retryLoop_iter by assumption. cbv zeta.
      destruct (classify (outcome (env r))) as [[|]|] eqn:Hc.
      * apply Hterm; assumption.
      * destruct (expJitterBackOff (draw (env r)) r factor) as [jitter|] eqn:Hb.
        -- specialize (IH (r + 1)
                         (afterWait env r jitter
                            (afterSend c env r (bodyFor originalBody st) st))
                         ltac:(lia)).
           destruct (retryLoop c env originalBody fuel (r + 1) _)
             as [[res evs] st3].
           apply Hretry; assumption.
        -- apply Hpanic; assumption.
      * apply Hnil; assumption.
    + rewrite retryLoop_exit by assumption. apply Hexit. assumption.
Qed.

(** The loop never runs out of the fuel [Do] gives it. *)
Lemma retryLoop_fuel fuel r st :
  (Z.to_nat (N - r) <= fuel)%nat ->
  fst (fst (retryLoop c env originalBody fuel r st)) <> OutOfFuel.
Proof using Type.
  apply (retryLoop_induction
           (fun _ _ x => fst (fst x) <> OutOfFuel)); simpl; intros;
    try discriminate; try assumption;
    unfold resultOf; destruct (lastError _); discriminate.
Qed.

End LoopFacts.

(** ** The backoff inside the loop *)

Lemma backOffInRange_at (c : FailAwareHTTPClient) (i : Z) :
  backOffInRange c ->
  0 <= i < MaxRetries (options c) ->
  3 <= baseDelay i (BackOffDelayFactor (options c)) <= MaxBase.
Proof.
  intros [Hlo Hhi] Hi. unfold baseDelay in *.
  set (q := Z.quot (BackOffDelayFactor (options c)) Millisecond) in *.
  pose proof (Z.pow_pos_nonneg 2 i ltac:(lia) ltac:(lia)) as Hp.
  pose proof (Z.pow_le_mono_r 2 i (MaxRetries (options c) - 1)
                ltac:(lia) ltac:(lia)) as Hm.
  split; [nia|].
  apply Z.le_trans with (2 ^ (MaxRetries (options c) - 1) * q); [|assumption].
  apply Z.mul_le_mono_nonneg_r; lia.
Qed.

Lemma backoff_defined (c : FailAwareHTTPClient) (i draw : Z) :
  backOffInRange c ->
  0 <= i < MaxRetries (options c) ->
  exists d,
    expJitterBackOff draw i (BackOffDelayFactor (options c)) = Some d /\ 0 < d.
Proof.
  intros Hc Hi. apply expJitterBackOff_positive; [lia|].
  apply backOffInRange_at; assumption.
Qed.

(** ** Runs of the loop *)

Section RunFacts.

Variable c : FailAwareHTTPClient.
Variable env : Env.
Variable originalBody : option (list Byte.byte).

Let N := MaxRetries (options c).
Let factor := BackOffDelayFactor (options c).

(** Every attempt of a run sends a reader at offset zero over the
    captured bytes. *)
Lemma retryLoop_sends_captured b fuel r st :
  originalBody = Some b ->
  (Z.to_nat (N - r) <= fuel)%nat ->
  forall i body,
    In (EvSend i body) (snd (fst (retryLoop c env originalBody fuel r st))) ->
    body = Some (NewBuffer b).
Proof using Type.
  intros Hb. revert fuel r st.
  apply (retryLoop_induction c env originalBody
           (fun _ _ x => forall i body,
                In (EvSend i body) (snd (fst x)) ->
                body = Some (NewBuffer b)));
    simpl; unfold bodyFor; intros; rewrite ?Hb in *;
    repeat match goal with
           | H : _ \/ _ |- _ => destruct H
           | H : False |- _ => destruct H
           | H : EvSend _ _ = EvSend _ _ |- _ => injection H as <- <-
           end;
    try discriminate; eauto.
Qed.

(** Without a body, every attempt of a run sends none. *)
Lemma retryLoop_sends_none fuel r st :
  originalBody = None ->
  (Z.to_nat (N - r) <= fuel)%nat ->
  reqBody st = None ->
  forall i body,
    In (EvSend i body) (snd (fst (retryLoop c env originalBody fuel r st))) ->
    body = None.
Proof using Type.
  intros Hb. revert fuel r st.
  apply (retryLoop_induction c env originalBody
           (fun _ st x => reqBody st = None ->
              forall i body,
                In (EvSend i body) (snd (fst x)) -> body = None));
    simpl; unfold bodyFor; intros; rewrite ?Hb in *;
    repeat match goal with
           | H : _ \/ _ |- _ => destruct H
           | H : False |- _ => destruct H
           | H : EvSend _ _ = EvSend _ _ |- _ => injection H as <- <-
           end;
    try discriminate; auto.
  match goal with
  | IH : _ -> forall i body, In _ _ -> _ |- _ => eapply IH; [|eassumption]
  end.
  match goal with H : reqBody _ = None |- _ => rewrite H end. reflexivity.
Qed.

(** A wait carries the index of an attempt of the run, which was
    retryable; and, the backoff being in range, every retryable attempt
    of the run is followed by its wait. *)
Lemma retryLoop_wait_iff fuel r st :
  backOffInRange c ->
  (Z.to_nat (N - r) <= fuel)%nat ->
  0 <= r ->
  forall i,
    waitAfter i (snd (fst (retryLoop c env originalBody fuel r st)))
    <-> attemptAt i (snd (fst (retryLoop c env originalBody fuel r st)))
        /\ retryable (outcome (env i)).
Proof using Type.
  intros Hc. revert fuel r st.
  apply (retryLoop_induction c env originalBody
           (fun r _ x => 0 <= r -> forall i,
                waitAfter i (snd (fst x))
                <-> attemptAt i (snd (fst x))
                    /\ retryable (outcome (env i))));
    unfold waitAfter, attemptAt, retryable; simpl.
  - intros r st _ _ i. split; [intros [d []]|intros [[b []] _]].
  - intros r st _ Hn. destruct (classify_total (outcome (env r))); congruence.
  - intros r st _ Ht _ i. split.
    + intros [d [H|[]]]. discriminate.
    + intros [[b [H|[]]] Hi]. injection H as <- _. congruence.
  - intros r st Hr _ Hb Hr0.
    destruct (backoff_defined c r (draw (env r)) Hc ltac:(fold N; lia))
      as (d & Hd & _).
    unfold factor in Hb. congruence.
  - intros r st jitter res evs st3 Hr Hcl Hb IH Hr0 i.
    specialize (IH ltac:(lia) i). split.
    + intros [d [H|[H|[H|H]]]]; try discriminate.
      * injection H as <- _. split; [eauto|assumption].
      * destruct IH as [IH _]. destruct (IH (ex_intro _ d H)) as [[b Hb'] Hi].
        split; [exists b; auto|assumption].
    + intros [[b [H|[H|[H|H]]]] Hi]; try discriminate.
      * injection H as <- _. exists jitter. auto.
      * destruct IH as [_ IH].
        destruct (IH (conj (ex_intro _ b H) Hi)) as [d Hd].
        exists d. auto.
Qed.

End RunFacts.

(** ** Runs in which every attempt is retryable *)

Section Exhaustion.

Variable c : FailAwareHTTPClient.
Variable env : Env.
Variable originalBody : option (list Byte.byte).

Let N := MaxRetries (options c).
Let factor := BackOffDelayFactor (options c).

Hypothesis in_range : backOffInRange c.

Lemma retryLoop_exhausted fuel r st :
  (Z.to_nat (N - r) <= fuel)%nat ->
  0 <= r <= N ->
  (forall i, r <= i < N -> retryable (outcome (env i))) ->
  exhaustedRun c env r st (retryLoop c env originalBody fuel r st).
Proof using in_range.
  revert fuel r st.
  apply (retryLoop_induction c env originalBody
           (fun r st x =>
              0 <= r <= N ->
              (forall i, r <= i < N -> retryable (outcome (env i))) ->
              exhaustedRun c env r st x)); unfold exhaustedRun; fold N.
  - intros r st Hr Hr' _. assert (r = N) as -> by lia.
    repeat split; try lia; simpl; try (rewrite Z.sub_diag; reflexivity).
    exists []. rewrite app_nil_r, Z.sub_diag.
    repeat split; try constructor.
    destruct (KeepLog (options c)); reflexivity.
  - intros r st _ Hn. destruct (classify_total (outcome (env r))); congruence.
  - intros r st Hr Ht Hr0 Hall.
    specialize (Hall r ltac:(lia)). unfold retryable in Hall. congruence.
  - intros r st Hr _ Hb Hr0.
    destruct (backoff_defined c r (draw (env r)) in_range ltac:(fold N; lia))
      as (d & Hd & _).
    unfold factor in Hb. congruence.
  - intros r st jitter res evs st3 Hr Hcl Hb IH Hr0 Hall.
    destruct (backoff_defined c r (draw (env r)) in_range ltac:(fold N; lia))
      as (d & Hd & Hpos).
    unfold factor in Hb. rewrite Hd in Hb. injection Hb as <-.
    destruct IH
      as (Hres & Hsame & Hlast & Hs & Hw & Hat & l' & Hlog & Hlen
          & [Hsort Hfrom] & Hof);
      [lia|intros i Hi; apply Hall; lia|].
    split; [assumption|].
    split; [lia|].
    split.
    { intros _. destruct (Z.eq_dec (r + 1) N) as [E|E].
      - rewrite (Hsame E). simpl. replace (N - 1) with r by lia. auto.
      - apply Hlast. lia. }
    split; [simpl; rewrite Hs; lia|].
    split; [simpl; rewrite Hw; lia|].
    split.
    { intros i Hi. unfold attemptAt, waitAfter. simpl.
      destruct (Z.eq_dec i r) as [->|E].
      - split; eexists; [left|right; left]; reflexivity.
      - destruct (Hat i ltac:(lia)) as [[b Hb] [w Hw']].
        split; eexists; do 3 right; eassumption. }
    simpl in Hlog, Hfrom.
    set (e := errEntryNow (err_of (outcome (env r)))
                (resp_of (outcome (env r))) (clock st)
                (clock st + Z.of_N (elapsed (env r)))) in *.
    destruct (KeepLog (options c)).
    + exists (e :: l'). rewrite Hlog, <- app_assoc. simpl.
      split; [reflexivity|].
      split; [lia|].
      split; [split|].
      * constructor; [assumption|].
        apply Forall_map. eapply Forall_impl; [|exact Hfrom].
        simpl. intros a Ha. lia.
      * constructor; [simpl; lia|].
        eapply Forall_impl; [|exact Hfrom]. simpl. intros a Ha. lia.
      * simpl. auto.
    + exists []. destruct l'; [|discriminate].
      rewrite Hlog. repeat split; constructor.
Qed.

End Exhaustion.

(** ** [readBody] and the frame of [Do] *)

Lemma readBody_nil : readBody None = (None, None).
Proof. reflexivity. Qed.

Lemma readBody_ok (b : Body) :
  rd_fail b = None -> readBody (Some b) = (Some (remaining b), None).
Proof. intros H. unfold readBody, ReadAll. rewrite H. reflexivity. Qed.

Lemma readBody_fails (b : Body) (e : rawError) :
  rd_fail b = Some e -> readBody (Some b) = (None, Some e).
Proof. intros H. unfold readBody, ReadAll. rewrite H. reflexivity. Qed.

(** The body is captured if and only if there is one. *)
Lemma readBody_captured body ob :
  readBody body = (ob, None) -> (ob = None <-> body = None).
Proof.
  destruct body as [b|]; simpl.
  - unfold ReadAll. destruct (rd_fail b); intros H; inversion H.
    split; discriminate.
  - intros H. inversion H. tauto.
Qed.

(** The state in which [Do] enters the loop. *)
Lemma Do_read_ok c env now req ob :
  readBody (ReqBody req) = (ob, None) ->
  Do c env now req
  = let st0 := {| reqBody := option_map drain (ReqBody req);
                  lastResponse := None; lastError := None;
                  errLog := []; clock := now |} in
    (fst (fst (retryLoop c env ob (Z.to_nat (MaxRetries (options c))) 0 st0)),
     snd (fst (retryLoop c env ob (Z.to_nat (MaxRetries (options c))) 0 st0))
       ++ closeBody
            (reqBody
               (snd (retryLoop c env ob (Z.to_nat (MaxRetries (options c))) 0 st0)))).
Proof.
  intros H. unfold Do. rewrite H. cbv zeta.
  destruct (retryLoop c env ob _ 0 _) as [[res evs] st]. reflexivity.
Qed.

Lemma in_send_close i body evs b :
  In (EvSend i body) (evs ++ closeBody b) <-> In (EvSend i body) evs.
Proof.
  rewrite in_app_iff. destruct b; simpl; [|tauto].
  split; [intros [H|[H|[]]]; [assumption|discriminate]|auto].
Qed.

Lemma in_wait_close i d evs b :
  In (EvWait i d) (evs ++ closeBody b) <-> In (EvWait i d) evs.
Proof.
  rewrite in_app_iff. destruct b; simpl; [|tauto].
  split; [intros [H|[H|[]]]; [assumption|discriminate]|auto].
Qed.

Lemma attemptAt_close i evs b :
  attemptAt i (evs ++ closeBody b) <-> attemptAt i evs.
Proof.
  unfold attemptAt. split; intros [body H]; exists body;
    apply in_send_close in H || apply in_send_close; assumption.
Qed.

Lemma waitAfter_close i evs b :
  waitAfter i (evs ++ closeBody b) <-> waitAfter i evs.
Proof.
  unfold waitAfter. split; intros [d H]; exists d;
    apply in_wait_close in H || apply in_wait_close; assumption.
Qed.

Lemma filter_send_close evs b :
  filter isSend (evs ++ closeBody b) = filter isSend evs.
Proof. rewrite filter_app. destruct b; simpl; apply app_nil_r. Qed.

Lemma filter_wait_close evs b :
  filter isWait (evs ++ closeBody b) = filter isWait evs.
Proof. rewrite filter_app. destruct b; simpl; apply app_nil_r. Qed.

(** [Do] always comes to a result or to a panic: the fuel it gives the
    loop is never used up. *)
Lemma Do_fuel c env now req : fst (Do c env now req) <> OutOfFuel.
Proof.
  unfold Do. destruct (readBody (ReqBody req)) as [ob [e|]]; [discriminate|].
  pose proof (retryLoop_fuel c env ob (Z.to_nat (MaxRetries (options c))) 0
                {| reqBody := option_map drain (ReqBody req);
                   lastResponse := None; lastError := None;
                   errLog := []; clock := now |} ltac:(lia)) as H.
  destruct (retryLoop c env ob _ 0 _) as [[res evs] st]. exact H.
Qed.

(** ** Exhaustion of [Do] *)

(** When every attempt is retryable and the backoff is in range, [Do] makes
    [MaxRetries] attempts, waits after each of them, and returns what the
    code after the loop builds from the last attempt. *)
Lemma Do_exhausted c env now req ob :
  let N := MaxRetries (options c) in
  let last := outcome (env (N - 1)) in
  backOffInRange c ->
  1 <= N ->
  readBody (ReqBody req) = (ob, None) ->
  (forall i, 0 <= i < N -> retryable (outcome (env i))) ->
  exists log,
    fst (Do c env now req)
    = match err_of last with
      | None => Returned (resp_of last) None
      | Some e =>
          Returned (resp_of last)
            (Some (FailAware {| Retries := N; Errors := log;
                                LastError := Some e |}))
      end
    /\ List.length log = (if KeepLog (options c) then Z.to_nat N else 0%nat)
    /\ logFrom now log
    /\ logOf env 0 log
    /\ List.length (filter isSend (snd (Do c env now req))) = Z.to_nat N
    /\ List.length (filter isWait (snd (Do c env now req))) = Z.to_nat N
    /\ (forall i, 0 <= i < N ->
          attemptAt i (snd (Do c env now req))
          /\ waitAfter i (snd (Do c env now req))).
Proof.
  intros N last Hc HN Hread Hall.
  rewrite (Do_read_ok c env now req ob Hread). cbv zeta. simpl fst. simpl snd.
  set (st0 := {| reqBody := option_map drain (ReqBody req);
                 lastResponse := None; lastError := None;
                 errLog := []; clock := now |}).
  pose proof (retryLoop_exhausted c env ob Hc (Z.to_nat N) 0 st0) as H.
  fold N in H. specialize (H ltac:(lia) ltac:(lia) Hall).
  fold N. destruct (retryLoop c env ob (Z.to_nat N) 0 st0) as [[res evs] st].
  unfold exhaustedRun in H. fold N in H.
  destruct H as (Hres & _ & Hlast & Hs & Hw & Hat & l & Hlog & Hlen & Hfrom & Hof).
  destruct (Hlast ltac:(lia)) as [Hlr Hle].
  simpl in Hlog. rewrite Z.sub_0_r in *.
  exists l. simpl fst. simpl snd.
  rewrite filter_send_close, filter_wait_close.
  split.
  { rewrite Hres. unfold resultOf. rewrite Hle, Hlr, Hlog. fold last.
    destruct (err_of last); reflexivity. }
  do 5 (split; [assumption|]).
  intros i Hi. split.
  - apply attemptAt_close. apply Hat. lia.
  - apply waitAfter_close. apply Hat. lia.
Qed.

(** The same for an endpoint that fails at the transport level: the
    failure counts [MaxRetries] retries and, with [KeepLog], its log has
    one entry per attempt, in the order of their starts. *)
Lemma Do_transport_always_fails c env now req ob :
  let N := MaxRetries (options c) in
  backOffInRange c ->
  1 <= N ->
  readBody (ReqBody req) = (ob, None) ->
  (forall i, 0 <= i < N -> exists e, outcome (env i) = Failed None e) ->
  exists log e,
    fst (Do c env now req)
    = Returned None
        (Some (FailAware {| Retries := N; Errors := log; LastError := Some e |}))
    /\ (KeepLog (options c) = true ->
        Z.of_nat (List.length log) = N
        /\ StronglySorted Z.lt (map timestampStarted log))
    /\ (KeepLog (options c) = false -> log = []).
Proof.
  intros N Hc HN Hread Hall.
  destruct (Do_exhausted c env now req ob Hc HN Hread)
    as (log & Hres & Hlen & [Hsort _] & _).
  { intros i Hi. destruct (Hall i Hi) as [e He]. unfold retryable.
    rewrite He. reflexivity. }
  destruct (Hall (N - 1) ltac:(lia)) as [e He]. fold N in Hres.
  rewrite He in Hres. simpl in Hres.
  exists log, e. split; [exact Hres|]. split.
  - intros Hk. rewrite Hk in Hlen. split; [lia|assumption].
  - intros Hk. rewrite Hk in Hlen. destruct log; [reflexivity|discriminate].
Qed.

(** ** The result at exhaustion *)

(** C1, as amended.  When every one of the [MaxRetries >= 1] attempts is
    retryable (and the backoff is in range), [Do] returns after
    [MaxRetries] attempts: if the last attempt ended in a transport error,
    it returns the last response together with a [FailAwareHTTPError] that
    carries [MaxRetries] as the retry count, the attempt log and that
    error; if the last attempt ended in a response (status 500 or more, or
    429) without an error, it returns that response and a nil error. *)
Theorem Do_result_on_exhaustion c env now req ob :
  let N := MaxRetries (options c) in
  let last := outcome (env (N - 1)) in
  backOffInRange c ->
  1 <= N ->
  readBody (ReqBody req) = (ob, None) ->
  (forall i, 0 <= i < N -> retryable (outcome (env i))) ->
  List.length (filter isSend (snd (Do c env now req))) = Z.to_nat N
  /\ (forall e, err_of last = Some e ->
        exists log,
          fst (Do c env now req)
          = Returned (resp_of last)
              (Some (FailAware {| Retries := N; Errors := log;
                                  LastError := Some e |}))
          /\ List.length log
             = (if KeepLog (options c) then Z.to_nat N else 0%nat)
          /\ logOf env 0 log)
  /\ (forall rsp, last = Responded rsp ->
        fst (Do c env now req) = Returned (Some rsp) None).
Proof.
  intros N last Hc HN Hread Hall.
  destruct (Do_exhausted c env now req ob Hc HN Hread Hall)
    as (log & Hres & Hlen & _ & Hof & Hs & _).
  fold N in Hres. fold last in Hres.
  split; [exact Hs|]. split.
  - intros e He. rewrite He in Hres. exists log. auto.
  - intros rsp Hl. rewrite Hl in Hres. exact Hres.
Qed.

Lemma optionsWithMinTimeouts_in_range :
  backOffInRange (NewClient optionsWithMinTimeouts).
Proof. split; vm_compute; discriminate. Qed.

Lemma Do_result_on_exhaustion_witness :
  exists log,
    fst (Do (NewClient optionsWithMinTimeouts) (constEnv (Failed None dialError))
           0 (request (Some dummyBody)))
    = Returned None
        (Some (FailAware {| Retries := 3; Errors := log;
                            LastError := Some dialError |}))
    /\ List.length log = 3%nat.
Proof.
  destruct (Do_result_on_exhaustion (NewClient optionsWithMinTimeouts)
              (constEnv (Failed None dialError)) 0 (request (Some dummyBody))
              (Some dummyBytes))
    as (_ & H & _).
  - split; vm_compute; discriminate.
  - vm_compute. discriminate.
  - reflexivity.
  - intros i _. reflexivity.
  - destruct (H dialError eq_refl) as (log & Hres & Hlen & _).
    exists log. split; [exact Hres|exact Hlen].
Defined.

(** C1, as stated, fails when the last attempt ends in a response: three
    attempts answered with status 500 are all retryable, and [Do] returns
    the last response with a nil error, not a [FailAwareHTTPError]. *)
Lemma Do_exhausted_on_status_500_counterexample :
  let c := NewClient optionsWithMinTimeouts in
  let env := constEnv (Responded {| StatusCode := 500 |}) in
  (forall i, retryable (outcome (env i)))
  /\ List.length (filter isSend (snd (Do c env 0 (request None)))) = 3%nat
  /\ fst (Do c env 0 (request None))
     = Returned (Some {| StatusCode := 500 |}) None
  /\ ~ (exists rsp f,
          fst (Do c env 0 (request None)) = Returned rsp (Some (FailAware f))).
Proof.
  intros c env.
  assert (E : fst (Do c env 0 (request None))
              = Returned (Some {| StatusCode := 500 |}) None)
    by (vm_compute; reflexivity).
  split; [intros i; reflexivity|].
  split; [vm_compute; reflexivity|].
  split; [exact E|].
  intros (rsp & f & H). rewrite E in H. discriminate.
Qed.

(** ** Classification *)

Section Reaching.

Variable c : FailAwareHTTPClient.
Variable env : Env.
Variable originalBody : option (list Byte.byte).
Variable k : Z.

Hypothesis k_below : k < MaxRetries (options c).

(** A run entered at [r] in which the attempts before [k] are retryable and
    followed by a backoff reaches attempt [k].  If that attempt ends the
    loop, the run returns its response and a nil error, after the attempts
    [r .. k] and the waits after [r .. k - 1]. *)
Lemma retryLoop_returns_at_terminal fuel r st :
  (Z.to_nat (MaxRetries (options c) - r) <= fuel)%nat ->
  r <= k ->
  (forall i, r <= i < k ->
     retryable (outcome (env i))
     /\ expJitterBackOff (draw (env i)) i (BackOffDelayFactor (options c))
        <> None) ->
  classify (outcome (env k)) = Some true ->
  fst (fst (retryLoop c env originalBody fuel r st))
  = Returned (resp_of (outcome (env k))) None
  /\ (forall i, attemptAt i (snd (fst (retryLoop c env originalBody fuel r st)))
                <-> r <= i <= k)
  /\ (forall i, waitAfter i (snd (fst (retryLoop c env originalBody fuel r st)))
                <-> r <= i < k).
Proof using k_below.
  revert fuel r st.
  apply (retryLoop_induction c env originalBody
           (fun r st x =>
              r <= k ->
              (forall i, r <= i < k ->
                 retryable (outcome (env i))
                 /\ expJitterBackOff (draw (env i)) i
                      (BackOffDelayFactor (options c)) <> None) ->
              classify (outcome (env k)) = Some true ->
              fst (fst x) = Returned (resp_of (outcome (env k))) None
              /\ (forall i, attemptAt i (snd (fst x)) <-> r <= i <= k)
              /\ (forall i, waitAfter i (snd (fst x)) <-> r <= i < k)));
    unfold attemptAt, waitAfter; simpl.
  - intros r st Hr Hk. lia.
  - intros r st _ Hn. destruct (classify_total (outcome (env r))); congruence.
  - intros r st Hr Ht Hk Hpre Hkt.
    destruct (Z.eq_dec r k) as [->|Hne].
    + apply classify_true_iff in Ht as [He _].
      unfold resultOf. simpl. rewrite He.
      split; [reflexivity|]. split; intros i; split.
      * intros [b [H|[]]]. injection H as <- _. lia.
      * intros Hi. assert (i = k) as -> by lia. eauto.
      * intros [d [H|[]]]. discriminate.
      * lia.
    + destruct (Hpre r ltac:(lia)) as [Hre _]. unfold retryable in Hre.
      congruence.
  - intros r st Hr Hf Hb Hk Hpre Hkt.
    destruct (Z.eq_dec r k) as [->|Hne]; [congruence|].
    destruct (Hpre r ltac:(lia)) as [_ Hd]. congruence.
  - intros r st jitter res evs st3 Hr Hf Hb IH Hk Hpre Hkt.
    destruct (Z.eq_dec r k) as [->|Hne]; [congruence|].
    destruct IH as (Hres & Hat & Hw);
      [lia|intros i Hi; apply Hpre; lia|assumption|].
    split; [assumption|]. split; intros i; split.
    + intros [b [H|[H|[H|H]]]]; try discriminate.
      * injection H as <- _. lia.
      * assert (r + 1 <= i <= k) by (apply Hat; eauto). lia.
    + intros Hi. destruct (Z.eq_dec i r) as [->|Hir]; [eauto|].
      destruct (proj2 (Hat i) ltac:(lia)) as [b Hb']. eauto 6.
    + intros [d [H|[H|[H|H]]]]; try discriminate.
      * injection H as <- _. lia.
      * assert (r + 1 <= i < k) by (apply Hw; eauto). lia.
    + intros Hi. destruct (Z.eq_dec i r) as [->|Hir]; [eauto|].
      destruct (proj2 (Hw i) ltac:(lia)) as [d Hd']. eauto 6.
Qed.

(** If attempt [k] is retryable instead, the run computes the backoff of
    index [k]: it panics there or waits for the delay computed. *)
Lemma retryLoop_backs_off_at_retryable fuel r st :
  (Z.to_nat (MaxRetries (options c) - r) <= fuel)%nat ->
  r <= k ->
  (forall i, r <= i < k ->
     retryable (outcome (env i))
     /\ expJitterBackOff (draw (env i)) i (BackOffDelayFactor (options c))
        <> None) ->
  classify (outcome (env k)) = Some false ->
  attemptAt k (snd (fst (retryLoop c env originalBody fuel r st)))
  /\ match expJitterBackOff (draw (env k)) k (BackOffDelayFactor (options c)) with
     | None => fst (fst (retryLoop c env originalBody fuel r st)) = Panicked
     | Some d =>
         In (EvWait k d) (snd (fst (retryLoop c env originalBody fuel r st)))
     end.
Proof using k_below.
  revert fuel r st.
  apply (retryLoop_induction c env originalBody
           (fun r st x =>
              r <= k ->
              (forall i, r <= i < k ->
                 retryable (outcome (env i))
                 /\ expJitterBackOff (draw (env i)) i
                      (BackOffDelayFactor (options c)) <> None) ->
              classify (outcome (env k)) = Some false ->
              attemptAt k (snd (fst x))
              /\ match expJitterBackOff (draw (env k)) k
                         (BackOffDelayFactor (options c)) with
                 | None => fst (fst x) = Panicked
                 | Some d => In (EvWait k d) (snd (fst x))
                 end));
    unfold attemptAt; simpl.
  - intros r st Hr Hk. lia.
  - intros r st _ Hn. destruct (classify_total (outcome (env r))); congruence.
  - intros r st Hr Ht Hk Hpre Hkf.
    destruct (Z.eq_dec r k) as [->|Hne]; [congruence|].
    destruct (Hpre r ltac:(lia)) as [Hre _]. unfold retryable in Hre.
    congruence.
  - intros r st Hr Hf Hb Hk Hpre Hkf.
    destruct (Z.eq_dec r k) as [->|Hne].
    + rewrite Hb. split; [eauto|reflexivity].
    + destruct (Hpre r ltac:(lia)) as [_ Hd]. congruence.
  - intros r st jitter res evs st3 Hr Hf Hb IH Hk Hpre Hkf.
    destruct (Z.eq_dec r k) as [->|Hne].
    + rewrite Hb. split; [eauto|auto].
    + destruct IH as [[b Hat] Hw];
        [lia|intros i Hi; apply Hpre; lia|assumption|].
      split; [eauto 6|].
      destruct (expJitterBackOff (draw (env k)) k _); auto.
Qed.

End Reaching.

(** C2.  Whenever [Do] reaches an attempt (the attempts before it were
    retryable and followed by their backoff), the outcome of the attempt
    ends the call if and only if the error is absent and the status is
    below 500 and not 429: [Do] then returns the response with a nil
    error, whatever the status below 500, and neither attempts nor waits
    again.  Every other outcome (an error, a status of 500 or more, a
    status of 429) is retryable: [Do] goes on into the backoff of that
    attempt.  No outcome is classified otherwise. *)
Theorem attempt_classification c env now req ob k :
  let factor := BackOffDelayFactor (options c) in
  let o := outcome (env k) in
  let run := Do c env now req in
  readBody (ReqBody req) = (ob, None) ->
  0 <= k < MaxRetries (options c) ->
  (forall i, 0 <= i < k ->
     retryable (outcome (env i))
     /\ expJitterBackOff (draw (env i)) i factor <> None) ->
  (classify o = Some true
   <-> err_of o = None
       /\ exists rsp, resp_of o = Some rsp
                      /\ StatusCode rsp < 500 /\ StatusCode rsp <> 429)
  /\ (classify o = Some false
      <-> err_of o <> None
          \/ exists rsp, resp_of o = Some rsp
                         /\ (500 <= StatusCode rsp \/ StatusCode rsp = 429))
  /\ (classify o = Some true \/ classify o = Some false)
  /\ (classify o = Some true ->
      fst run = Returned (resp_of o) None
      /\ (forall i, attemptAt i (snd run) <-> 0 <= i <= k)
      /\ (forall i, waitAfter i (snd run) <-> 0 <= i < k))
  /\ (classify o = Some false ->
      attemptAt k (snd run)
      /\ match expJitterBackOff (draw (env k)) k factor with
         | None => fst run = Panicked
         | Some d => In (EvWait k d) (snd run)
         end).
Proof.
  intros factor o run Hread Hk Hpre.
  split; [apply classify_true_iff|].
  split; [apply classify_false_iff|].
  split; [apply classify_total|].
  unfold run. rewrite (Do_read_ok c env now req ob Hread). cbv zeta.
  simpl fst. simpl snd. split.
  - intros Ht.
    destruct (retryLoop_returns_at_terminal c env ob k ltac:(lia)
                (Z.to_nat (MaxRetries (options c))) 0
                {| reqBody := option_map drain (ReqBody req);
                   lastResponse := None; lastError := None;
                   errLog := []; clock := now |})
      as (Hres & Hat & Hw); try assumption; try lia.
    split; [exact Hres|].
    split; intros i; [rewrite attemptAt_close|rewrite waitAfter_close]; auto.
  - intros Hf.
    destruct (retryLoop_backs_off_at_retryable c env ob k ltac:(lia)
                (Z.to_nat (MaxRetries (options c))) 0
                {| reqBody := option_map drain (ReqBody req);
                   lastResponse := None; lastError := None;
                   errLog := []; clock := now |})
      as (Hat & Hw); try assumption; try lia.
    split; [apply attemptAt_close; exact Hat|].
    fold factor in Hw. destruct (expJitterBackOff (draw (env k)) k factor).
    + apply in_wait_close. exact Hw.
    + exact Hw.
Qed.

Lemma attempt_classification_witness :
  classify (Responded {| StatusCode := 404 |}) = Some true
  /\ fst (Do NewDefaultClient (constEnv (Responded {| StatusCode := 404 |}))
            0 (request (Some dummyBody)))
     = Returned (Some {| StatusCode := 404 |}) None.
Proof.
  destruct (attempt_classification NewDefaultClient
              (constEnv (Responded {| StatusCode := 404 |})) 0
              (request (Some dummyBody)) (Some dummyBytes) 0)
    as (_ & _ & _ & H & _).
  - reflexivity.
  - vm_compute. split; [discriminate|reflexivity].
  - intros i Hi. lia.
  - split; [reflexivity|]. destruct (H eq_refl) as [E _]. exact E.
Defined.

(** The tests of the repository: status 200 and status 400 end the call at
    the first attempt, without an error and without a wait. *)
Example Do_status_200 :
  Do NewDefaultClient (constEnv (Responded {| StatusCode := 200 |})) 0
    (request None)
  = (Returned (Some {| StatusCode := 200 |}) None, [EvSend 0 None]).
Proof. reflexivity. Qed.

Example Do_status_400 :
  Do NewDefaultClient (constEnv (Responded {| StatusCode := 400 |})) 0
    (request None)
  = (Returned (Some {| StatusCode := 400 |}) None, [EvSend 0 None]).
Proof. reflexivity. Qed.

(** ** An endpoint that always fails *)

(** C3, at the failing input.  With [MaxRetries = 1] and a backoff factor
    of one millisecond, an attempt that fails at the transport level is
    followed by the backoff computation, which panics: [Do] returns no
    failure at all. *)
Theorem Do_panics_on_small_factor env now :
  (exists rsp e, outcome (env 0) = Failed rsp e) ->
  Do (NewClient (optionsOneAttempt (1 * Millisecond))) env now (request None)
  = (Panicked, [EvSend 0 None]).
Proof.
  intros (rsp & e & He).
  rewrite (Do_read_ok _ env now (request None) None eq_refl). cbv zeta.
  change (Z.to_nat (MaxRetries (options (NewClient (optionsOneAttempt (1 * Millisecond))))))
    with 1%nat.
  rewrite retryLoop_iter by (vm_compute; reflexivity). cbv zeta.
  rewrite He.
  change (classify (Failed rsp e)) with (Some false).
  rewrite backoff_panics_below_three_ms
    by (vm_compute; split; [discriminate|reflexivity]).
  reflexivity.
Qed.

Lemma Do_panics_on_small_factor_witness :
  Do (NewClient (optionsOneAttempt (1 * Millisecond)))
    (constEnv (Failed None dialError)) 0 (request None)
  = (Panicked, [EvSend 0 None]).
Proof.
  apply Do_panics_on_small_factor. exists None, dialError. reflexivity.
Defined.

Example Do_always_failing_min_timeouts :
  exists log,
    fst (Do (NewClient optionsWithMinTimeouts) (constEnv (Failed None dialError))
           0 (request (Some dummyBody)))
    = Returned None
        (Some (FailAware {| Retries := 3; Errors := log;
                            LastError := Some dialError |}))
    /\ map timestampStarted log = [0; 4001000; 11002000].
Proof. eexists. split; vm_compute; reflexivity. Qed.

(** ** Waits *)

(** C6, as amended.  In every execution of [Do] (the backoff being in
    range), a backoff wait occurs after attempt index [i] if and only if
    attempt [i] was made and is classified retryable; this includes the
    last index: when all [MaxRetries] attempts are retryable, the wait
    after attempt [MaxRetries - 1] precedes the return. *)
Theorem wait_after_every_retryable_attempt c env now req ob :
  let N := MaxRetries (options c) in
  let evs := snd (Do c env now req) in
  backOffInRange c ->
  readBody (ReqBody req) = (ob, None) ->
  (forall i, waitAfter i evs
             <-> attemptAt i evs /\ retryable (outcome (env i)))
  /\ (1 <= N ->
      (forall i, 0 <= i < N -> retryable (outcome (env i))) ->
      waitAfter (N - 1) evs).
Proof.
  intros N evs Hc Hread. split.
  - intros i. unfold evs.
    rewrite (Do_read_ok c env now req ob Hread). cbv zeta. simpl snd.
    rewrite waitAfter_close, attemptAt_close.
    apply retryLoop_wait_iff; [assumption|lia|lia].
  - intros HN Hall.
    destruct (Do_exhausted c env now req ob Hc HN Hread Hall)
      as (_ & _ & _ & _ & _ & _ & _ & Hat).
    apply Hat. fold N. lia.
Qed.

Lemma wait_after_every_retryable_attempt_witness :
  waitAfter 2
    (snd (Do (NewClient optionsWithMinTimeouts)
            (constEnv (Failed None dialError)) 0 (request None))).
Proof.
  destruct (wait_after_every_retryable_attempt
              (NewClient optionsWithMinTimeouts)
              (constEnv (Failed None dialError)) 0 (request None) None)
    as [_ H].
  - split; vm_compute; discriminate.
  - reflexivity.
  - apply H.
    + vm_compute. discriminate.
    + intros i _. reflexivity.
Defined.

(** C6, as stated, fails at the last index: with [MaxRetries = 1] the only
    attempt has index [0 = MaxRetries - 1], it is retryable, and [Do] waits
    after it before it returns. *)
Lemma wait_after_final_attempt_counterexample :
  let c := NewClient (optionsOneAttempt (5 * Millisecond)) in
  let env := constEnv (Failed None dialError) in
  let evs := snd (Do c env 0 (request None)) in
  evs = [EvSend 0 None; EvWait 0 (4 * Millisecond); EvDebug 1 (4 * Millisecond)]
  /\ ~ (forall i,
          waitAfter i evs
          <-> retryable (outcome (env i)) /\ i < MaxRetries (options c) - 1).
Proof.
  intros c env evs.
  assert (E : evs = [EvSend 0 None; EvWait 0 (4 * Millisecond);
                     EvDebug 1 (4 * Millisecond)])
    by (vm_compute; reflexivity).
  split; [exact E|].
  intros H. destruct (H 0) as [H0 _].
  assert (Hw : waitAfter 0 evs).
  { exists (4 * Millisecond). rewrite E. right. left. reflexivity. }
  destruct (H0 Hw) as [_ Hlt]. vm_compute in Hlt. discriminate.
Qed.

(** ** The body of the attempts *)

(** C7.  For a request with a body (which can be read), the bytes are
    captured once, before the loop, and every attempt of [Do], the first
    included, sends a reader of its own at offset zero over the captured
    bytes, however much of the body the transport read at the attempts
    before; for a request without a body, every attempt sends none.  So
    the bytes sent at any two attempts are the same. *)
Theorem body_replayed_at_every_attempt c env now req :
  let evs := snd (Do c env now req) in
  (forall b, ReqBody req = Some b -> rd_fail b = None ->
     forall i body, In (EvSend i body) evs ->
       body = Some (NewBuffer (remaining b))
       /\ bytesSent body = remaining b)
  /\ (ReqBody req = None ->
      forall i body, In (EvSend i body) evs ->
        body = None /\ bytesSent body = [])
  /\ (forall i j bi bj,
        In (EvSend i bi) evs -> In (EvSend j bj) evs ->
        bytesSent bi = bytesSent bj).
Proof.
  intros evs.
  assert (Hsome : forall b, ReqBody req = Some b -> rd_fail b = None ->
            forall i body, In (EvSend i body) evs ->
              body = Some (NewBuffer (remaining b))).
  { intros b Hb Hf i body Hin. unfold evs in Hin.
    rewrite (Do_read_ok c env now req (Some (remaining b))) in Hin
      by (rewrite Hb; apply readBody_ok; assumption).
    cbv zeta in Hin. simpl snd in Hin. apply in_send_close in Hin.
    eapply retryLoop_sends_captured; [reflexivity| |exact Hin]. lia. }
  assert (Hnone : ReqBody req = None ->
            forall i body, In (EvSend i body) evs -> body = None).
  { intros Hb i body Hin. unfold evs in Hin.
    rewrite (Do_read_ok c env now req None) in Hin
      by (rewrite Hb; reflexivity).
    cbv zeta in Hin. simpl snd in Hin. apply in_send_close in Hin.
    eapply retryLoop_sends_none; [reflexivity| | |exact Hin]; [lia|].
    simpl. rewrite Hb. reflexivity. }
  split; [|split].
  - intros b Hb Hf i body Hin.
    rewrite (Hsome b Hb Hf i body Hin). split; reflexivity.
  - intros Hb i body Hin. rewrite (Hnone Hb i body Hin). split; reflexivity.
  - intros i j bi bj Hi Hj.
    destruct (ReqBody req) as [b|] eqn:Hb.
    + destruct (rd_fail b) as [e|] eqn:Hf.
      * exfalso. unfold evs, Do in Hi. rewrite Hb in Hi.
        rewrite (readBody_fails b e Hf) in Hi. simpl in Hi.
        destruct Hi as [Hi|[]]. discriminate.
      * rewrite (Hsome b eq_refl Hf i bi Hi), (Hsome b eq_refl Hf j bj Hj).
        reflexivity.
    + rewrite (Hnone eq_refl i bi Hi), (Hnone eq_refl j bj Hj). reflexivity.
Qed.

Lemma body_replayed_at_every_attempt_witness :
  let evs := snd (Do (NewClient optionsWithMinTimeouts)
                    (constEnv (Failed None dialError)) 0
                    (request (Some dummyBody))) in
  In (EvSend 2 (Some dummyBody)) evs
  /\ bytesSent (Some dummyBody) = dummyBytes.
Proof.
  intros evs.
  assert (Hin : In (EvSend 2 (Some dummyBody)) evs).
  { vm_compute. do 6 right. left. reflexivity. }
  split; [exact Hin|].
  destruct (body_replayed_at_every_attempt (NewClient optionsWithMinTimeouts)
              (constEnv (Failed None dialError)) 0 (request (Some dummyBody)))
    as [H _].
  destruct (H dummyBody eq_refl eq_refl 2 (Some dummyBody) Hin) as [_ Hb].
  exact Hb.
Defined.

(** ** A body that cannot be read *)

(** C8.  If reading the body of the request fails, [Do] returns no
    response and that error; it has made no attempt, built no
    [FailAwareHTTPError] (hence no attempt record) and waited for no
    backoff: all it has done is to close the body. *)
Theorem Do_body_read_failure c env now req b e :
  ReqBody req = Some b ->
  rd_fail b = Some e ->
  Do c env now req = (Returned None (Some (IOError e)), [EvClose])
  /\ (forall i, ~ attemptAt i (snd (Do c env now req)))
  /\ (forall i, ~ waitAfter i (snd (Do c env now req))).
Proof.
  intros Hb Hf.
  assert (E : Do c env now req = (Returned None (Some (IOError e)), [EvClose])).
  { unfold Do. rewrite Hb, (readBody_fails b e Hf). reflexivity. }
  rewrite E. split; [reflexivity|]. simpl.
  split; intros i [x [H|[]]]; discriminate.
Qed.

Lemma Do_body_read_failure_witness :
  Do NewDefaultClient (constEnv (Responded {| StatusCode := 200 |})) 0
    (request (Some brokenBody))
  = (Returned None (Some (IOError unexpectedEOF)), [EvClose]).
Proof.
  apply (Do_body_read_failure NewDefaultClient _ 0
           (request (Some brokenBody)) brokenBody unexpectedEOF);
    reflexivity.
Defined.

(** ** Cancellation *)

Lemma NewDefaultClient_in_range : backOffInRange NewDefaultClient.
Proof. split; vm_compute; discriminate. Qed.

(** C9, at the failing input.  The loop of [Do] does not look at the
    cancellation of the request: a request cancelled before the call makes
    every attempt of the transport fail, and the default client attempts
    three times, waits three times and reports three retries, not zero. *)
Theorem Do_cancelled_before_first_attempt env now :
  (forall i, outcome (env i) = Failed None contextCanceled) ->
  fst (Do NewDefaultClient env now (request None))
  = Returned None
      (Some (FailAware {| Retries := 3; Errors := [];
                          LastError := Some contextCanceled |}))
  /\ List.length (filter isSend (snd (Do NewDefaultClient env now (request None))))
     = 3%nat
  /\ List.length (filter isWait (snd (Do NewDefaultClient env now (request None))))
     = 3%nat.
Proof.
  intros Hall.
  destruct (Do_exhausted NewDefaultClient env now (request None) None
              NewDefaultClient_in_range)
    as (log & Hres & Hlen & _ & _ & Hs & Hw & _).
  - vm_compute. discriminate.
  - reflexivity.
  - intros i _. unfold retryable. rewrite Hall. reflexivity.
  - rewrite Hall in Hres. simpl in Hres, Hlen.
    destruct log; [|discriminate].
    split; [exact Hres|]. split; [exact Hs|exact Hw].
Qed.

Lemma Do_cancelled_before_first_attempt_witness :
  fst (Do NewDefaultClient (constEnv (Failed None contextCanceled)) 0
         (request None))
  = Returned None
      (Some (FailAware {| Retries := 3; Errors := [];
                          LastError := Some contextCanceled |})).
Proof.
  apply (Do_cancelled_before_first_attempt
           (constEnv (Failed None contextCanceled)) 0).
  intros i. reflexivity.
Defined.

(** ** A negative [MaxRetries] *)

(** C10, as amended.  The effective [MaxRetries] of a client is zero or
    less only if [NewClient] was given a negative one (zero is replaced by
    the default of 3), and then every call to [Do] whose request body is
    captured without error makes no attempt, waits for no backoff and
    returns no response and no error (so no attempt record either). *)
Theorem Do_negative_MaxRetries opts :
  (MaxRetries (options (NewClient opts)) <= 0 <-> MaxRetries opts < 0)
  /\ (MaxRetries opts < 0 ->
      forall env now req ob,
        readBody (ReqBody req) = (ob, None) ->
        Do (NewClient opts) env now req
        = (Returned None None, closeBody (ReqBody req))
        /\ (forall i, ~ attemptAt i (snd (Do (NewClient opts) env now req)))
        /\ (forall i, ~ waitAfter i (snd (Do (NewClient opts) env now req)))).
Proof.
  assert (HN : MaxRetries (options (NewClient opts))
               = if MaxRetries opts =? 0 then 3 else MaxRetries opts)
    by reflexivity.
  split.
  - rewrite HN. destruct (Z.eqb_spec (MaxRetries opts) 0); lia.
  - intros Hneg env now req ob Hread.
    assert (E : Do (NewClient opts) env now req
                = (Returned None None, closeBody (ReqBody req))).
    { rewrite (Do_read_ok _ env now req ob Hread). cbv zeta.
      rewrite retryLoop_exit
        by (rewrite HN; destruct (Z.eqb_spec (MaxRetries opts) 0); lia).
      simpl. destruct (ReqBody req); reflexivity. }
    rewrite E. split; [reflexivity|]. simpl.
    split; intros i [x H]; destruct (ReqBody req); simpl in H;
      try destruct H as [H|[]]; try discriminate; assumption.
Qed.

Lemma Do_negative_MaxRetries_witness :
  Do (NewClient {| MaxRetries := -1; Timeout := 0; BackOffDelayFactor := 0;
                   KeepLog := true |})
    (constEnv (Failed None dialError)) 0 (request (Some dummyBody))
  = (Returned None None, [EvClose]).
Proof.
  destruct (Do_negative_MaxRetries
              {| MaxRetries := -1; Timeout := 0; BackOffDelayFactor := 0;
                 KeepLog := true |}) as [_ H].
  destruct (H ltac:(simpl; lia) (constEnv (Failed None dialError)) 0
              (request (Some dummyBody)) (Some dummyBytes) eq_refl)
    as [E _].
  exact E.
Defined.

(** C10, as stated, fails for a request whose body cannot be read: [Do]
    still makes no attempt, but it returns the error of the read, not a
    nil error. *)
Lemma Do_negative_MaxRetries_counterexample :
  let c := NewClient {| MaxRetries := -1; Timeout := 0;
                        BackOffDelayFactor := 0; KeepLog := true |} in
  MaxRetries (options c) = -1
  /\ Do c (constEnv (Failed None dialError)) 0 (request (Some brokenBody))
     = (Returned None (Some (IOError unexpectedEOF)), [EvClose])
  /\ fst (Do c (constEnv (Failed None dialError)) 0 (request (Some brokenBody)))
     <> Returned None None.
Proof.
  intros c. split; [reflexivity|]. split; [reflexivity|].
  simpl. discriminate.
Qed.

(** * Further properties *)

(** ** Options *)

(** X1.  The options of a client are resolved field by field: each of
    [Timeout], [MaxRetries] and [BackOffDelayFactor] is the caller's value
    unless that is zero, and the default (1 s, 3, 1 s) if it is; so none of
    them is ever zero; [KeepLog] is the caller's; and the HTTP client gets
    the resolved timeout. *)
Theorem NewClient_resolves_each_field opts :
  let o := options (NewClient opts) in
  (Timeout o <> 0 /\ MaxRetries o <> 0 /\ BackOffDelayFactor o <> 0)
  /\ Timeout o = (if Timeout opts =? 0 then 1 * Second else Timeout opts)
  /\ MaxRetries o = (if MaxRetries opts =? 0 then 3 else MaxRetries opts)
  /\ BackOffDelayFactor o
     = (if BackOffDelayFactor opts =? 0 then 1 * Second
        else BackOffDelayFactor opts)
  /\ KeepLog o = KeepLog opts
  /\ ClientTimeout (httpClient (NewClient opts)) = Timeout o.
Proof.
  intros o. unfold o, NewClient. simpl.
  repeat split;
    try (destruct (Z.eqb_spec (Timeout opts) 0);
         [vm_compute; discriminate|assumption]);
    try (destruct (Z.eqb_spec (MaxRetries opts) 0);
         [vm_compute; discriminate|assumption]);
    try (destruct (Z.eqb_spec (BackOffDelayFactor opts) 0);
         [vm_compute; discriminate|assumption]).
Qed.

(** X2.  Resolving options a second time changes nothing, and the options
    of a client are the caller's own exactly when none of the three numeric
    fields is zero. *)
Theorem NewClient_idempotent opts :
  NewClient (options (NewClient opts)) = NewClient opts
  /\ (options (NewClient opts) = opts
      <-> Timeout opts <> 0 /\ MaxRetries opts <> 0
          /\ BackOffDelayFactor opts <> 0).
Proof.
  destruct opts as [m t b k]. unfold NewClient. simpl. split.
  - destruct (Z.eqb_spec t 0), (Z.eqb_spec m 0), (Z.eqb_spec b 0);
      repeat match goal with
             | |- context [?x =? 0] =>
                 let E := fresh in
                 destruct (Z.eqb_spec x 0) as [E|E];
                 [try (vm_compute in E; discriminate); try contradiction|]
             end; reflexivity.
  - split.
    + intros H. injection H as Hm Ht Hb.
      destruct (Z.eqb_spec t 0), (Z.eqb_spec m 0), (Z.eqb_spec b 0);
        subst; try discriminate; auto.
    + intros (Ht & Hm & Hb).
      destruct (Z.eqb_spec t 0), (Z.eqb_spec m 0), (Z.eqb_spec b 0);
        try contradiction; reflexivity.
Qed.

Example NewClient_zero_is_default : NewClient nullOptions = NewDefaultClient.
Proof. reflexivity. Qed.

(** ** The log level *)

(** X3.  [logLevel] panics exactly for the values of LOG_LEVEL that are none
    of the seven level names in lower case nor empty; an unset variable
    means the error level; and two level names give the same level only if
    they are the same name. *)
Theorem logLevel_known_names (s : string) :
  (logLevel s = None <-> ~ In s levelNames)
  /\ logLevel EmptyString = Some ErrorLevel
  /\ (forall s', s <> EmptyString -> s' <> EmptyString ->
        logLevel s <> None -> logLevel s = logLevel s' -> s = s').
Proof.
  assert (Hchar : forall s l, logLevel s = Some l -> In s levelNames).
  { intros s0 l. unfold logLevel, levelNames.
    repeat match goal with
           | |- context [String.eqb s0 ?x] =>
               destruct (String.eqb_spec s0 x) as [->|?]
           end; simpl; try discriminate; auto 10. }
  split; [|split].
  - split.
    + intros Hn Hin. simpl in Hin.
      repeat destruct Hin as [<-|Hin]; try discriminate. destruct Hin.
    + intros Hn. destruct (logLevel s) as [l|] eqn:E; [|reflexivity].
      exfalso. apply Hn. eapply Hchar. eassumption.
  - reflexivity.
  - intros s' Hs Hs' Hdef Heq.
    destruct (logLevel s) as [l|] eqn:E; [|congruence].
    pose proof (Hchar s l E) as Hin.
    pose proof (Hchar s' l (eq_sym Heq)) as Hin'.
    simpl in Hin, Hin'.
    repeat destruct Hin as [<-|Hin]; try contradiction; try congruence;
      repeat destruct Hin' as [<-|Hin']; try contradiction; try congruence;
      try reflexivity; try (vm_compute in E; vm_compute in Heq; congruence).
Qed.

Lemma logLevel_known_names_witness :
  logLevel "DEBUG" = None /\ logLevel "debug" = Some DebugLevel.
Proof.
  split; [|reflexivity].
  apply (logLevel_known_names "DEBUG"). simpl.
  intros H. repeat destruct H as [H|H]; try discriminate. exact H.
Defined.

(** ** The domain of the backoff *)

Lemma wrap64_zero : wrap64 0 = 0.
Proof. reflexivity. Qed.

Lemma quot3_bounds (b : Z) :
  (3 <= b -> 1 <= Z.quot b 3 /\ 3 * Z.quot b 3 <= b)
  /\ (b < 3 -> Z.quot b 3 <= 0 /\ b - 2 <= 3 * Z.quot b 3 <= b + 2).
Proof.
  pose proof (Z.quot_rem b 3 ltac:(lia)) as Hq.
  split; intros Hb.
  - pose proof (Z.rem_bound_pos b 3 ltac:(lia) ltac:(lia)). lia.
  - destruct (Z_lt_le_dec b 0) as [Hn|Hn].
    + pose proof (Z.rem_bound_pos_neg b 3 ltac:(lia) ltac:(lia)). lia.
    + pose proof (Z.rem_bound_pos b 3 ltac:(lia) ltac:(lia)). lia.
Qed.

(** The product of the source is the base delay as long as that fits an
    [int]. *)
Lemma ms_is_base (i q : Z) :
  0 <= i -> in_range (2 ^ i * q) -> mul64 (shl1 (uint i)) q = 2 ^ i * q.
Proof.
  intros Hi Hr. destruct (Z.eq_dec q 0) as [->|Hq].
  { unfold mul64. rewrite !Z.mul_0_r. reflexivity. }
  pose proof (Z.pow_pos_nonneg 2 i ltac:(lia) Hi) as Hp.
  assert (Hle : 2 ^ i <= 2 ^ 63).
  { unfold in_range, min_int, max_int in Hr. nia. }
  assert (Hi63 : i <= 63).
  { destruct (Z_le_gt_dec i 63); [assumption|exfalso].
    pose proof (Z.pow_lt_mono_r 2 63 i ltac:(lia) ltac:(lia) ltac:(lia)).
    lia. }
  unfold uint, modulus.
  rewrite Z.mod_small
    by (split; [lia|]; apply Z.le_lt_trans with 63; [lia|reflexivity]).
  unfold shl1. destruct (Z.ltb_spec i 64); [|lia].
  destruct (Z.eq_dec i 63) as [->|Hne].
  - assert (q = -1).
    { unfold in_range, min_int, max_int in Hr. rewrite pow2_63 in *. lia. }
    subst q. reflexivity.
  - assert (Hlt : 2 ^ i < 2 ^ 63) by (apply Z.pow_lt_mono_r; lia).
    rewrite (wrap64_small (2 ^ i))
      by (unfold in_range, min_int, max_int; lia).
    apply wrap64_small. assumption.
Qed.

(** As long as the base delay fits an [int], the computation panics
    exactly when twice its third, the bound handed to [Intn], is not
    positive. *)
Lemma backoff_none_iff_bound (draw i factor : Z) :
  0 <= i ->
  in_range (baseDelay i factor) ->
  (expJitterBackOff draw i factor = None
   <-> 2 * Z.quot (baseDelay i factor) 3 <= 0).
Proof.
  intros Hi Hr. unfold expJitterBackOff.
  rewrite (ms_is_base i (Z.quot factor Millisecond) Hi Hr).
  fold (baseDelay i factor). set (b := baseDelay i factor) in *.
  pose proof (quot3_bounds b) as [Hge Hlt].
  assert (Hm : mul64 2 (Z.quot b 3) = 2 * Z.quot b 3).
  { apply wrap64_small.
    unfold in_range, min_int, max_int in *. rewrite pow2_63 in *.
    destruct (Z_lt_le_dec b 3) as [H|H];
      [specialize (Hlt H)|specialize (Hge H)]; lia. }
  rewrite Hm. unfold Intn.
  destruct (Z.leb_spec (2 * Z.quot b 3) 0) as [Hle|Hgt].
  - split; [intros _; exact Hle|reflexivity].
  - split; [discriminate|lia].
Qed.

(** X4.  For an attempt index [i >= 0] and a factor whose base delay
    [2^i * (factor in whole milliseconds)] fits an [int], the backoff
    computation panics if and only if the base delay is below three
    milliseconds (zero and negative factors included), whatever the random
    source gives. *)
Theorem backoff_defined_iff (draw i factor : Z) :
  0 <= i ->
  in_range (baseDelay i factor) ->
  (expJitterBackOff draw i factor = None <-> baseDelay i factor < 3).
Proof.
  intros Hi Hr. rewrite (backoff_none_iff_bound draw i factor Hi Hr).
  pose proof (quot3_bounds (baseDelay i factor)) as [Hge Hlt].
  split; intros H.
  - destruct (Z_lt_le_dec (baseDelay i factor) 3) as [Hb|Hb]; [exact Hb|].
    specialize (Hge Hb). lia.
  - specialize (Hlt H). lia.
Qed.

Lemma backoff_defined_iff_witness :
  expJitterBackOff 5 1 (1 * Millisecond) = None
  /\ expJitterBackOff 5 1 (-4 * Millisecond) = None.
Proof.
  split.
  - apply (proj2 (backoff_defined_iff 5 1 (1 * Millisecond) ltac:(lia)
                    ltac:(vm_compute; split; discriminate))).
    vm_compute. reflexivity.
  - apply (proj2 (backoff_defined_iff 5 1 (-4 * Millisecond) ltac:(lia)
                    ltac:(vm_compute; split; discriminate))).
    vm_compute. reflexivity.
Defined.

(** At index 63 the shift gives the least [int]: its product with the
    factor is zero or the least [int] again. *)
Lemma backoff_panics_at_63 (draw factor : Z) :
  expJitterBackOff draw 63 factor = None.
Proof.
  unfold expJitterBackOff. set (q := Z.quot factor Millisecond).
  assert (Hms : mul64 (shl1 (uint 63)) q = 0
                \/ mul64 (shl1 (uint 63)) q = - 2 ^ 63).
  { change (shl1 (uint 63)) with (- 2 ^ 63). unfold mul64, wrap64, modulus.
    destruct (Z.Even_or_Odd q) as [[k ->]|[k ->]].
    - left. replace (- 2 ^ 63 * (2 * k) + 2 ^ 63)
        with (2 ^ 63 + (- k) * 2 ^ 64) by (rewrite !pow2_63; lia).
      rewrite Z_mod_plus_full. reflexivity.
    - right. replace (- 2 ^ 63 * (2 * k + 1) + 2 ^ 63)
        with (0 + (- k) * 2 ^ 64) by (rewrite !pow2_63; lia).
      rewrite Z_mod_plus_full. reflexivity. }
  destruct Hms as [-> | ->]; reflexivity.
Qed.

(** X5.  From attempt index 63 on, and for a negative index, the backoff
    computation panics for every factor and every value of the random
    source: the shift gives the least [int] or zero, and with it a bound
    for [Intn] that is not positive. *)
Theorem backoff_panics_from_index_63 (draw i factor : Z) :
  in_range i ->
  i < 0 \/ 63 <= i ->
  expJitterBackOff draw i factor = None.
Proof.
  intros Hr Hi.
  destruct (Z.eq_dec i 63) as [->|Hne]; [apply backoff_panics_at_63|].
  unfold expJitterBackOff.
  assert (Hs : shl1 (uint i) = 0).
  { unfold shl1. destruct (Z.ltb_spec (uint i) 64) as [Hlt|]; [|reflexivity].
    exfalso. unfold uint, modulus, in_range, min_int, max_int in *.
    rewrite pow2_63 in *.
    assert (2 ^ 64 = 18446744073709551616) as E by reflexivity.
    destruct Hi as [Hi|Hi].
    - replace i with (i + 2 ^ 64 + (-1) * 2 ^ 64) in Hlt by lia.
      rewrite Z_mod_plus_full in Hlt.
      rewrite Z.mod_small in Hlt; rewrite ?E in *; lia.
    - rewrite Z.mod_small in Hlt; rewrite ?E in *; lia. }
  rewrite Hs. unfold mul64. rewrite Z.mul_0_l. reflexivity.
Qed.

Lemma backoff_panics_from_index_63_witness :
  expJitterBackOff 1 63 (5 * Millisecond) = None
  /\ expJitterBackOff 1 64 (5 * Millisecond) = None.
Proof.
  split; apply backoff_panics_from_index_63;
    try (vm_compute; split; discriminate); right; lia.
Defined.

(** X6.  Whatever the random source gives, the backoff grows from one
    attempt to the next: as long as nothing wraps, the delay of index
    [i + 1] is longer than the delay of index [i]. *)
Theorem backoff_grows (draw1 draw2 i factor d1 d2 : Z) :
  0 <= i ->
  3 <= baseDelay i factor ->
  baseDelay (i + 1) factor <= MaxBase ->
  expJitterBackOff draw1 i factor = Some d1 ->
  expJitterBackOff draw2 (i + 1) factor = Some d2 ->
  d1 < d2.
Proof.
  intros Hi Hlo Hhi H1 H2.
  assert (Hb : baseDelay (i + 1) factor = 2 * baseDelay i factor).
  { unfold baseDelay. rewrite Z.pow_add_r by lia. change (2 ^ 1) with 2. ring. }
  set (b := baseDelay i factor) in *.
  rewrite expJitterBackOff_no_wrap in H1 by (fold b; lia).
  rewrite expJitterBackOff_no_wrap in H2 by (rewrite ?Hb; fold b; lia).
  rewrite Hb in H2. fold b in H1.
  pose proof (quot3_bounds b) as [Hq1 _]. specialize (Hq1 Hlo).
  pose proof (quot3_bounds (2 * b)) as [Hq2 _]. specialize (Hq2 ltac:(lia)).
  pose proof (Z.mod_pos_bound draw1 (2 * Z.quot b 3) ltac:(lia)) as Hr1.
  pose proof (Z.mod_pos_bound draw2 (2 * Z.quot (2 * b) 3) ltac:(lia)) as Hr2.
  set (r1 := draw1 mod (2 * Z.quot b 3)) in *.
  set (r2 := draw2 mod (2 * Z.quot (2 * b) 3)) in *.
  set (q1 := Z.quot b 3) in *. set (q2 := Z.quot (2 * b) 3) in *.
  assert (E1 : d1 = (b + (r1 - q1)) * Millisecond) by congruence.
  assert (E2 : d2 = (2 * b + (r2 - q2)) * Millisecond) by congruence.
  rewrite E1, E2. unfold Millisecond, Microsecond, Nanosecond. lia.
Qed.

Lemma backoff_grows_witness : 5 * Millisecond < 7 * Millisecond.
Proof.
  apply (backoff_grows 11 0 0 (5 * Millisecond)
           (5 * Millisecond) (7 * Millisecond));
    try reflexivity; try lia; vm_compute; discriminate.
Defined.

(** ** What a result of [Do] tells *)

Lemma err_of_none (o : Outcome) :
  err_of o = None -> exists rsp, o = Responded rsp.
Proof. destruct o as [rsp|rsp e]; [eauto|discriminate]. Qed.

Section Inversion.

Variable c : FailAwareHTTPClient.
Variable env : Env.
Variable originalBody : option (list Byte.byte).

Lemma entered_first st :
  lastResponse st = None -> lastError st = None -> errLog st = [] ->
  entered c env 0 st.
Proof using Type.
  intros Hr He Hl. unfold entered. rewrite Hl.
  repeat split; try lia; try assumption.
  destruct (KeepLog (options c)); reflexivity.
Qed.

Lemma entered_next r st jitter :
  entered c env r st ->
  r < MaxRetries (options c) ->
  classify (outcome (env r)) = Some false ->
  expJitterBackOff (draw (env r)) r (BackOffDelayFactor (options c))
  = Some jitter ->
  entered c env (r + 1)
    (afterWait env r jitter (afterSend c env r (bodyFor originalBody st) st)).
Proof using Type.
  intros (H0 & _ & _ & Hret & Hlen) Hr Hcl Hj. unfold entered. simpl.
  replace (r + 1 - 1) with r by lia.
  split; [lia|]. split; [lia|]. split; [intros _; split; [lia|auto]|].
  split.
  - intros i Hi. destruct (Z.eq_dec i r) as [->|Hne];
      [split; [exact Hcl|congruence]|].
    apply Hret. lia.
  - destruct (KeepLog (options c)); [|assumption].
    rewrite length_app, Hlen. simpl. lia.
Qed.

(** What the result of a run tells about the attempts. *)
Lemma retryLoop_inversion fuel r st :
  (Z.to_nat (MaxRetries (options c) - r) <= fuel)%nat ->
  entered c env r st ->
  resultTells c env (fst (fst (retryLoop c env originalBody fuel r st)))
  /\ (forall rsp e,
        fst (fst (retryLoop c env originalBody fuel r st))
        <> Returned rsp (Some (IOError e))).
Proof using Type.
  revert fuel r st.
  apply (retryLoop_induction c env originalBody
           (fun r st x =>
              entered c env r st ->
              resultTells c env (fst (fst x))
              /\ (forall rsp e, fst (fst x) <> Returned rsp (Some (IOError e)))));
    unfold resultTells; simpl.
  - (* the code after the loop *)
    intros r st Hr (H0 & Hfirst & Hlater & Hret & Hlen).
    unfold resultOf.
    destruct (Z.eq_dec r 0) as [->|Hne].
    + destruct (Hfirst eq_refl) as [Hlr Hle]. rewrite Hle, Hlr.
      split; [|discriminate].
      split; [discriminate|]. split; [|discriminate].
      intros rsp E. injection E as <-. left. split; [lia|reflexivity].
    + destruct (Hlater ltac:(lia)) as (HrN & Hlr & Hle).
      assert (r = MaxRetries (options c)) as -> by lia.
      set (N := MaxRetries (options c)) in *.
      destruct (lastError st) as [e|] eqn:E; rewrite Hlr.
      * split; [|discriminate].
        split; [|split; discriminate].
        intros rsp f Hf. injection Hf as <- <-. simpl.
        repeat split; try lia; try assumption; try congruence;
          apply Hret; assumption.
      * split; [|discriminate].
        split; [discriminate|]. split; [|discriminate].
        intros rsp Hf. injection Hf as <-.
        destruct (err_of_none (outcome (env (N - 1))) (eq_sym Hle)) as [rsp' Ho].
        right. exists (N - 1), rsp'. rewrite Ho. simpl.
        split; [lia|]. split; [reflexivity|]. split; [reflexivity|].
        split; [intros i Hi; apply Hret; lia|].
        right. split; [reflexivity|exact Hret].
  - intros r st _ Hn. destruct (classify_total (outcome (env r))); congruence.
  - (* the return inside the loop *)
    intros r st Hr Ht (H0 & _ & _ & Hret & _).
    pose proof Ht as Ht'.
    apply classify_true_iff in Ht' as (He & rsp' & Hrsp & _).
    destruct (err_of_none _ He) as [rsp'' Ho].
    unfold resultOf. simpl. rewrite He.
    split; [|discriminate].
    split; [discriminate|]. split; [|discriminate].
    intros rsp E. injection E as <-. right. exists r, rsp''.
    rewrite Ho. simpl.
    split; [lia|]. split; [reflexivity|]. split; [reflexivity|].
    split; [intros i Hi; apply Hret; lia|].
    left. rewrite <- Ho. exact Ht.
  - (* the panic of the backoff *)
    intros r st Hr Hf Hb (H0 & _ & _ & Hret & _).
    split; [|discriminate].
    split; [discriminate|]. split; [discriminate|].
    intros _. exists r. split; [lia|]. split; [|exact Hb].
    intros i Hi. destruct (Z.eq_dec i r) as [->|Hne]; [exact Hf|].
    apply Hret. lia.
  - intros r st jitter res evs st3 Hr Hf Hb IH Hent.
    apply IH. apply entered_next; assumption.
Qed.

End Inversion.

Lemma Do_inversion c env now req : resultTells c env (fst (Do c env now req)).
Proof.
  unfold Do.
  destruct (readBody (ReqBody req)) as [ob [e|]].
  - unfold resultTells. simpl. repeat split; discriminate.
  - pose proof (retryLoop_inversion c env ob
                  (Z.to_nat (MaxRetries (options c))) 0
                  {| reqBody := option_map drain (ReqBody req);
                     lastResponse := None; lastError := None;
                     errLog := []; clock := now |}) as H.
    specialize (H ltac:(lia)).
    specialize (H ltac:(apply entered_first; reflexivity)).
    destruct (retryLoop c env ob _ 0 _) as [[r evs] st]. simpl in *.
    apply H.
Qed.

(** X7.  Whenever [Do] returns a [FailAwareHTTPError], all [MaxRetries]
    attempts were made and every one of them was retryable: [Retries] is
    [MaxRetries] (which is positive), [LastError] is the error of the last
    attempt and is not nil, the response returned with it is the last
    attempt's, and [Errors] has one entry per attempt with [KeepLog] and
    none without.  The [return] of a [FailAwareHTTPError] inside the loop
    is never taken. *)
Theorem Do_failure_means_exhaustion c env now req rsp f :
  let N := MaxRetries (options c) in
  fst (Do c env now req) = Returned rsp (Some (FailAware f)) ->
  1 <= N /\ Retries f = N
  /\ rsp = resp_of (outcome (env (N - 1)))
  /\ LastError f = err_of (outcome (env (N - 1)))
  /\ LastError f <> None
  /\ (forall i, 0 <= i < N -> retryable (outcome (env i)))
  /\ List.length (Errors f)
     = (if KeepLog (options c) then Z.to_nat N else 0%nat).
Proof.
  intros N H. destruct (Do_inversion c env now req) as (Ha & _).
  destruct (Ha rsp f H) as (H1 & H2 & H3 & H4 & H5 & H6 & H7).
  repeat split; try assumption. intros i Hi. apply H6. exact Hi.
Qed.

Lemma Do_failure_means_exhaustion_witness :
  retryable (outcome (constEnv (Failed None dialError) 2)).
Proof.
  destruct (Do_failure_means_exhaustion (NewClient optionsWithMinTimeouts)
              (constEnv (Failed None dialError)) 0 (request (Some dummyBody))
              None
              {| Retries := 3;
                 Errors :=
                   [errEntryNow (Some dialError) None 0 1000;
                    errEntryNow (Some dialError) None 4001000 4002000;
                    errEntryNow (Some dialError) None 11002000 11003000];
                 LastError := Some dialError |})
    as (_ & _ & _ & _ & _ & H & _).
  - vm_compute. reflexivity.
  - apply H. vm_compute. split; [discriminate|reflexivity].
Defined.

(** X8.  Whenever [Do] of a client with a positive [MaxRetries] returns a
    nil error, the response it returns is not nil: it is the response of
    the last attempt made, which came without an error, and either its
    status ended the loop or it was the response of attempt
    [MaxRetries - 1]. *)
Theorem Do_nil_error_has_response c env now req rsp :
  let N := MaxRetries (options c) in
  1 <= N ->
  fst (Do c env now req) = Returned rsp None ->
  exists k rsp',
    0 <= k < N /\ outcome (env k) = Responded rsp' /\ rsp = Some rsp'
    /\ (forall i, 0 <= i < k -> retryable (outcome (env i)))
    /\ (classify (outcome (env k)) = Some true \/ k = N - 1).
Proof.
  intros N HN H. destruct (Do_inversion c env now req) as (_ & Hb & _).
  destruct (Hb rsp H) as [[Hle _]|(k & rsp' & Hk & Ho & Hr & Hret & Hlast)];
    [fold N in Hle; lia|].
  exists k, rsp'. repeat split; try assumption; try lia.
  destruct Hlast as [Ht|[Hl _]]; [left; exact Ht|right; exact Hl].
Qed.

Lemma Do_nil_error_has_response_witness :
  exists k rsp',
    0 <= k < 3
    /\ outcome (constEnv (Responded {| StatusCode := 503 |}) k) = Responded rsp'
    /\ Some {| StatusCode := 503 |} = Some rsp'.
Proof.
  destruct (Do_nil_error_has_response NewDefaultClient
              (constEnv (Responded {| StatusCode := 503 |})) 0 (request None)
              (Some {| StatusCode := 503 |}))
    as (k & rsp' & Hk & Ho & Hr & _).
  - vm_compute. discriminate.
  - vm_compute. reflexivity.
  - exists k, rsp'. auto.
Defined.

(** X9.  [Do] panics only in the backoff computation after a retryable
    attempt (the response is never dereferenced when it is nil); so for a
    factor whose backoff is in range, [Do] returns, whatever the transport
    answers. *)
Theorem Do_panics_only_in_backoff c env now req :
  (fst (Do c env now req) = Panicked ->
   exists k,
     0 <= k < MaxRetries (options c)
     /\ retryable (outcome (env k))
     /\ expJitterBackOff (draw (env k)) k (BackOffDelayFactor (options c))
        = None)
  /\ (backOffInRange c ->
      exists rsp e, fst (Do c env now req) = Returned rsp e).
Proof.
  destruct (Do_inversion c env now req) as (_ & _ & Hc).
  assert (Hp : fst (Do c env now req) = Panicked ->
               exists k,
                 0 <= k < MaxRetries (options c)
                 /\ retryable (outcome (env k))
                 /\ expJitterBackOff (draw (env k)) k
                      (BackOffDelayFactor (options c)) = None).
  { intros H. destruct (Hc H) as (k & Hk & Hret & Hb).
    exists k. split; [exact Hk|]. split; [apply Hret; lia|exact Hb]. }
  split; [exact Hp|].
  intros Hin. destruct (fst (Do c env now req)) as [rsp e| |] eqn:E.
  - eauto.
  - destruct (Hp eq_refl) as (k & Hk & _ & Hb).
    destruct (backoff_defined c k (draw (env k)) Hin Hk) as (d & Hd & _).
    congruence.
  - exfalso. exact (Do_fuel c env now req E).
Qed.

Lemma Do_panics_only_in_backoff_witness :
  exists rsp e,
    fst (Do NewDefaultClient (constEnv (Failed None dialError)) 0
           (request None))
    = Returned rsp e.
Proof.
  apply (Do_panics_only_in_backoff NewDefaultClient
           (constEnv (Failed None dialError)) 0 (request None)).
  exact NewDefaultClient_in_range.
Defined.

(** ** The events of a run *)

Section EventFacts.

Variable c : FailAwareHTTPClient.
Variable env : Env.
Variable originalBody : option (list Byte.byte).

(** Attempts are made in the order of their indices, each after the wait
    of the one before, and there are no more of them than indices left. *)
Lemma retryLoop_attempts_in_order fuel r st :
  let N := MaxRetries (options c) in
  let evs := snd (fst (retryLoop c env originalBody fuel r st)) in
  (Z.to_nat (N - r) <= fuel)%nat ->
  0 <= r ->
  (forall i, attemptAt i evs ->
     r <= i < N
     /\ forall j, r <= j < i ->
          attemptAt j evs /\ waitAfter j evs /\ retryable (outcome (env j)))
  /\ (List.length (filter isSend evs) <= Z.to_nat (N - r))%nat
  /\ (List.length (filter isWait evs) <= List.length (filter isSend evs))%nat.
Proof using Type.
  intros N. cbv zeta. revert fuel r st.
  apply (retryLoop_induction c env originalBody
           (fun r st x =>
              0 <= r ->
              (forall i, attemptAt i (snd (fst x)) ->
                 r <= i < N
                 /\ forall j, r <= j < i ->
                      attemptAt j (snd (fst x)) /\ waitAfter j (snd (fst x))
                      /\ retryable (outcome (env j)))
              /\ (List.length (filter isSend (snd (fst x)))
                  <= Z.to_nat (N - r))%nat
              /\ (List.length (filter isWait (snd (fst x)))
                  <= List.length (filter isSend (snd (fst x))))%nat));
    unfold attemptAt, waitAfter; simpl; fold N.
  - intros r st _ _. split; [intros i [b []]|lia].
  - intros r st _ Hn. destruct (classify_total (outcome (env r))); congruence.
  - intros r st Hr _ H0. split; [|lia].
    intros i [b [H|[]]]. injection H as <- _. split; [lia|]. intros j Hj. lia.
  - intros r st Hr _ _ H0. split; [|lia].
    intros i [b [H|[]]]. injection H as <- _. split; [lia|]. intros j Hj. lia.
  - intros r st jitter res evs st3 Hr Hf Hb IH H0.
    destruct (IH ltac:(lia)) as (Hat & Hs & Hw). split; [|lia].
    intros i [b [H|[H|[H|H]]]]; try discriminate.
    + injection H as <- _. split; [lia|]. intros j Hj. lia.
    + destruct (Hat i (ex_intro _ b H)) as [Hi Hbefore].
      split; [lia|]. intros j Hj.
      destruct (Z.eq_dec j r) as [->|Hne].
      * split; [eauto|]. split; [eauto|exact Hf].
      * destruct (Hbefore j ltac:(lia)) as ([b' Hb'] & [d Hd] & Hret).
        split; [eauto 6|]. split; [eauto 6|exact Hret].
Qed.

(** The retry notices are those of the waits, numbered from one. *)
Lemma retryLoop_notices fuel r st :
  (Z.to_nat (MaxRetries (options c) - r) <= fuel)%nat ->
  forall n d,
    In (EvDebug n d) (snd (fst (retryLoop c env originalBody fuel r st)))
    <-> In (EvWait (n - 1) d)
          (snd (fst (retryLoop c env originalBody fuel r st))).
Proof using Type.
  revert fuel r st.
  apply (retryLoop_induction c env originalBody
           (fun r st x => forall n d,
                In (EvDebug n d) (snd (fst x))
                <-> In (EvWait (n - 1) d) (snd (fst x)))); simpl.
  - intros; tauto.
  - intros r st _ _ n d. split; intros [H|[]]; discriminate.
  - intros r st _ _ n d. split; intros [H|[]]; discriminate.
  - intros r st _ _ _ n d. split; intros [H|[]]; discriminate.
  - intros r st jitter res evs st3 _ _ _ IH n d. split.
    + intros [H|[H|[H|H]]]; try discriminate.
      * injection H as <- <-. replace (r + 1 - 1) with r by lia. auto.
      * do 3 right. apply IH. exact H.
    + intros [H|[H|[H|H]]]; try discriminate.
      * injection H as Hn <-. replace n with (r + 1) by lia. auto.
      * do 3 right. apply IH. exact H.
Qed.

(** The loop closes nothing, and leaves a body in the request exactly if
    there was one. *)
Lemma retryLoop_keeps_body fuel r st :
  (Z.to_nat (MaxRetries (options c) - r) <= fuel)%nat ->
  (originalBody = None <-> reqBody st = None) ->
  ~ In EvClose (snd (fst (retryLoop c env originalBody fuel r st)))
  /\ closeBody (reqBody (snd (retryLoop c env originalBody fuel r st)))
     = closeBody (reqBody st).
Proof using Type.
  assert (Hsend : forall r0 st0,
            (originalBody = None <-> reqBody st0 = None) ->
            closeBody
              (reqBody (afterSend c env r0 (bodyFor originalBody st0) st0))
            = closeBody (reqBody st0)).
  { intros r0 st0 Hb. simpl. unfold bodyFor.
    destruct originalBody as [b|]; destruct (reqBody st0) as [b'|];
      try reflexivity; destruct Hb as [H1 H2];
      try (specialize (H2 eq_refl)); try (specialize (H1 eq_refl));
      discriminate. }
  revert fuel r st.
  apply (retryLoop_induction c env originalBody
           (fun r st x =>
              (originalBody = None <-> reqBody st = None) ->
              ~ In EvClose (snd (fst x))
              /\ closeBody (reqBody (snd x)) = closeBody (reqBody st)));
    simpl snd; simpl fst.
  - intros r st _ _. split; [intros []|reflexivity].
  - intros r st _ _ Hb. split; [intros [H|[]]; discriminate|auto].
  - intros r st _ _ Hb. split; [intros [H|[]]; discriminate|auto].
  - intros r st _ _ _ Hb. split; [intros [H|[]]; discriminate|auto].
  - intros r st jitter res evs st3 _ _ _ IH Hb.
    pose proof (Hsend r st Hb) as Hs.
    destruct IH as [Hin Hc].
    { simpl. unfold bodyFor.
      destruct originalBody as [b|]; destruct (reqBody st) as [b'|]; simpl;
        split; intros H; try discriminate; try reflexivity;
        destruct Hb as [H1 H2];
        try (specialize (H2 eq_refl)); try (specialize (H1 eq_refl));
        discriminate. }
    split.
    + intros [H|[H|[H|H]]]; try discriminate. auto.
    + rewrite Hc. exact Hs.
Qed.

End EventFacts.

Lemma steps_close evs b : steps (evs ++ closeBody b) = steps evs.
Proof.
  induction evs as [|e evs IH]; simpl.
  - destruct b; reflexivity.
  - destruct e; rewrite IH; reflexivity.
Qed.

(** The attempts and waits of a run entered at index [r] are an initial
    part of attempt [r], wait [r], attempt [r + 1], wait [r + 1], ... *)
Lemma retryLoop_steps c env ob fuel r st :
  (Z.to_nat (MaxRetries (options c) - r) <= fuel)%nat ->
  exists k,
    steps (snd (fst (retryLoop c env ob fuel r st)))
    = firstn k (schedule (Z.to_nat (MaxRetries (options c) - r)) r).
Proof.
  revert fuel r st.
  apply (retryLoop_induction c env ob
           (fun r st x =>
              exists k,
                steps (snd (fst x))
                = firstn k (schedule (Z.to_nat (MaxRetries (options c) - r)) r)));
    simpl fst; simpl snd.
  - intros r st _. exists 0%nat. reflexivity.
  - intros r st _ Hn. destruct (classify_total (outcome (env r))); congruence.
  - intros r st Hr _. exists 1%nat.
    replace (Z.to_nat (MaxRetries (options c) - r))
      with (S (Z.to_nat (MaxRetries (options c) - (r + 1)))) by lia.
    reflexivity.
  - intros r st Hr _ _. exists 1%nat.
    replace (Z.to_nat (MaxRetries (options c) - r))
      with (S (Z.to_nat (MaxRetries (options c) - (r + 1)))) by lia.
    reflexivity.
  - intros r st jitter res evs st3 Hr _ _ [k IH]. exists (S (S k)).
    replace (Z.to_nat (MaxRetries (options c) - r))
      with (S (Z.to_nat (MaxRetries (options c) - (r + 1)))) by lia.
    simpl. rewrite IH. reflexivity.
Qed.

(** X10.  The attempts and waits of [Do], in the order in which they
    happen, are an initial part of attempt 0, wait 0, attempt 1, wait 1,
    ..., attempt [MaxRetries - 1], wait [MaxRetries - 1]: no index is
    attempted twice or out of turn, a wait lies between any two attempts,
    and there are never more than [MaxRetries] attempts.  An attempt is
    made only after every attempt before it was retryable. *)
Theorem Do_attempts_in_order c env now req :
  let N := MaxRetries (options c) in
  let evs := snd (Do c env now req) in
  (exists k, steps evs = firstn k (schedule (Z.to_nat N) 0))
  /\ (forall i, attemptAt i evs ->
        0 <= i < N
        /\ forall j, 0 <= j < i ->
             attemptAt j evs /\ waitAfter j evs /\ retryable (outcome (env j)))
  /\ (List.length (filter isSend evs) <= Z.to_nat N)%nat
  /\ (List.length (filter isWait evs) <= List.length (filter isSend evs))%nat.
Proof.
  intros N evs. unfold evs, Do.
  destruct (readBody (ReqBody req)) as [ob [e|]].
  - simpl. split; [|split].
    + exists 0%nat. destruct (option_map drain (ReqBody req)); reflexivity.
    + intros i [b H]. destruct (option_map drain (ReqBody req));
        simpl in H; try destruct H as [H|[]]; try discriminate; destruct H.
    + destruct (option_map drain (ReqBody req)); simpl; lia.
  - pose proof (retryLoop_attempts_in_order c env ob
                  (Z.to_nat (MaxRetries (options c))) 0
                  {| reqBody := option_map drain (ReqBody req);
                     lastResponse := None; lastError := None;
                     errLog := []; clock := now |}) as H.
    pose proof (retryLoop_steps c env ob
                  (Z.to_nat (MaxRetries (options c))) 0
                  {| reqBody := option_map drain (ReqBody req);
                     lastResponse := None; lastError := None;
                     errLog := []; clock := now |} ltac:(lia)) as [k Hk].
    cbv zeta in H. specialize (H ltac:(lia) ltac:(lia)).
    destruct (retryLoop c env ob _ 0 _) as [[res evs'] st]. simpl in *.
    rewrite filter_send_close, filter_wait_close, steps_close.
    destruct H as (Hat & Hs & Hw). fold N in Hat, Hs, Hk.
    rewrite Z.sub_0_r in Hs, Hk.
    split; [exists k; exact Hk|].
    split; [|split; assumption].
    intros i Hi. apply attemptAt_close in Hi.
    destruct (Hat i Hi) as [Hr Hbefore]. split; [exact Hr|].
    intros j Hj. destruct (Hbefore j Hj) as (Ha & Hw' & Hret).
    split; [apply attemptAt_close; exact Ha|].
    split; [apply waitAfter_close; exact Hw'|exact Hret].
Qed.

Lemma Do_attempts_in_order_witness :
  exists k,
    steps (snd (Do (NewClient optionsWithMinTimeouts)
                  (constEnv (Failed None dialError)) 0
                  (request (Some dummyBody))))
    = firstn k [Attempted 0; Waited 0; Attempted 1; Waited 1;
                Attempted 2; Waited 2].
Proof.
  apply (Do_attempts_in_order (NewClient optionsWithMinTimeouts)
           (constEnv (Failed None dialError)) 0 (request (Some dummyBody))).
Defined.

(** The events of [Do] are those of the loop, followed by one close if
    the request has a body. *)
Lemma Do_events_end_with_close c env now req :
  exists evs,
    snd (Do c env now req) = evs ++ closeBody (ReqBody req)
    /\ ~ In EvClose evs.
Proof.
  unfold Do. destruct (readBody (ReqBody req)) as [ob [e|]] eqn:Hread.
  - exists []. simpl. split; [|intros []].
    destruct (ReqBody req); reflexivity.
  - pose proof (retryLoop_keeps_body c env ob
                  (Z.to_nat (MaxRetries (options c))) 0
                  {| reqBody := option_map drain (ReqBody req);
                     lastResponse := None; lastError := None;
                     errLog := []; clock := now |} ltac:(lia)) as H.
    destruct H as [Hin Hc].
    { simpl. pose proof (readBody_captured _ _ Hread) as Hcap.
      destruct (ReqBody req); simpl; split; intros H;
        try discriminate; try reflexivity;
        destruct Hcap as [H1 H2];
        try (specialize (H1 H)); try (specialize (H2 eq_refl));
        first [discriminate|assumption]. }
    destruct (retryLoop c env ob _ 0 _) as [[res evs] st]. simpl in *.
    exists evs. split; [|exact Hin]. rewrite Hc.
    destruct (ReqBody req); reflexivity.
Qed.




(** X12.  Every retry notice of [Do] reports a wait that took place, with
    its duration and the number of the attempt counted from one, and every
    wait has its notice. *)
Theorem Do_notice_for_every_wait c env now req n d :
  In (EvDebug n d) (snd (Do c env now req))
  <-> In (EvWait (n - 1) d) (snd (Do c env now req)).
Proof.
  unfold Do. destruct (readBody (ReqBody req)) as [ob [e|]].
  - simpl. destruct (option_map drain (ReqBody req)); simpl;
      split; intros H; try destruct H as [H|[]]; try discriminate;
      destruct H.
  - pose proof (retryLoop_notices c env ob
                  (Z.to_nat (MaxRetries (options c))) 0
                  {| reqBody := option_map drain (ReqBody req);
                     lastResponse := None; lastError := None;
                     errLog := []; clock := now |} ltac:(lia) n d) as H.
    destruct (retryLoop c env ob _ 0 _) as [[res evs] st]. simpl in *.
    rewrite in_wait_close. rewrite in_app_iff.
    split.
    + intros [Hin|Hin]; [apply H; exact Hin|].
      destruct (reqBody st); simpl in Hin;
        try destruct Hin as [Hin|[]]; try discriminate; destruct Hin.
    + intros Hin. left. apply H. exact Hin.
Qed.

(** ** What [Do] takes from the client *)

Lemma dropLog_resultOf r st1 st2 :
  dropStateLog st1 = dropStateLog st2 ->
  dropLog (resultOf r st1) = dropLog (resultOf r st2).
Proof.
  unfold dropStateLog, resultOf. intros H. injection H as _ Hr He _.
  rewrite Hr, He. destruct (lastError st2); reflexivity.
Qed.

Lemma dropStateLog_afterSend c1 c2 env ob r st1 st2 :
  dropStateLog st1 = dropStateLog st2 ->
  bodyFor ob st1 = bodyFor ob st2
  /\ dropStateLog (afterSend c1 env r (bodyFor ob st1) st1)
     = dropStateLog (afterSend c2 env r (bodyFor ob st2) st2).
Proof.
  unfold dropStateLog, bodyFor, afterSend. simpl. intros H.
  injection H as Hb _ _ Hc. rewrite Hb, Hc. split; reflexivity.
Qed.

Lemma dropStateLog_afterWait env r jitter st1 st2 :
  dropStateLog st1 = dropStateLog st2 ->
  dropStateLog (afterWait env r jitter st1)
  = dropStateLog (afterWait env r jitter st2).
Proof.
  unfold dropStateLog, afterWait. simpl. intros H.
  injection H as Hb Hr He Hc. rewrite Hb, Hr, He, Hc. reflexivity.
Qed.

(** Two runs of the loop for clients with the same [MaxRetries] and the
    same backoff factor differ in the log only. *)
Lemma retryLoop_log_only c1 c2 env ob fuel :
  MaxRetries (options c1) = MaxRetries (options c2) ->
  BackOffDelayFactor (options c1) = BackOffDelayFactor (options c2) ->
  forall r st1 st2,
    dropStateLog st1 = dropStateLog st2 ->
    dropLog (fst (fst (retryLoop c1 env ob fuel r st1)))
    = dropLog (fst (fst (retryLoop c2 env ob fuel r st2)))
    /\ snd (fst (retryLoop c1 env ob fuel r st1))
       = snd (fst (retryLoop c2 env ob fuel r st2))
    /\ dropStateLog (snd (retryLoop c1 env ob fuel r st1))
       = dropStateLog (snd (retryLoop c2 env ob fuel r st2)).
Proof.
  intros HN Hf. induction fuel as [|fuel IH]; intros r st1 st2 Hst.
  - simpl. rewrite HN. destruct (r <? MaxRetries (options c2)); simpl.
    + auto.
    + split; [apply dropLog_resultOf; exact Hst|auto].
  - destruct (Z_lt_le_dec r (MaxRetries (options c2))) as [Hr|Hr].
    + rewrite !retryLoop_iter by lia. cbv zeta. rewrite Hf.
      destruct (dropStateLog_afterSend c1 c2 env ob r st1 st2 Hst) as [Hb Hs].
      rewrite Hb in Hs |- *.
      destruct (classify (outcome (env r))) as [[|]|]; simpl.
      * split; [apply dropLog_resultOf; exact Hs|auto].
      * destruct (expJitterBackOff _ _ _) as [jitter|]; simpl; [|auto].
        specialize (IH (r + 1) _ _
                      (dropStateLog_afterWait env r jitter _ _ Hs)).
        destruct (retryLoop c1 env ob fuel (r + 1) _) as [[res1 evs1] st1'].
        destruct (retryLoop c2 env ob fuel (r + 1) _) as [[res2 evs2] st2'].
        simpl in *. destruct IH as (H1 & H2 & H3).
        split; [exact H1|]. split; [rewrite H2; reflexivity|exact H3].
      * auto.
    + rewrite !retryLoop_exit by lia. simpl.
      split; [apply dropLog_resultOf; exact Hst|auto].
Qed.

(** X13.  [KeepLog] changes nothing but the log: for the same answers of
    the transport, a client and the same client with another [KeepLog]
    make the same attempts, waits and notices and return the same result
    up to the [Errors] of a [FailAwareHTTPError]; without [KeepLog] the
    result is exactly the result with it, [Errors] left empty. *)
Theorem Do_log_does_not_change_the_run c k env now req :
  snd (Do (setKeepLog k c) env now req) = snd (Do c env now req)
  /\ dropLog (fst (Do (setKeepLog k c) env now req))
     = dropLog (fst (Do c env now req))
  /\ fst (Do (setKeepLog false c) env now req)
     = dropLog (fst (Do c env now req)).
Proof.
  assert (Hdrop : forall k',
            snd (Do (setKeepLog k' c) env now req) = snd (Do c env now req)
            /\ dropLog (fst (Do (setKeepLog k' c) env now req))
               = dropLog (fst (Do c env now req))).
  { intros k'. unfold Do.
    destruct (readBody (ReqBody req)) as [ob [e|]]; [split; reflexivity|].
    change (MaxRetries (options (setKeepLog k' c)))
      with (MaxRetries (options c)).
    pose proof (retryLoop_log_only (setKeepLog k' c) c env ob
                  (Z.to_nat (MaxRetries (options c))) eq_refl eq_refl 0
                  {| reqBody := option_map drain (ReqBody req);
                     lastResponse := None; lastError := None;
                     errLog := []; clock := now |}
                  {| reqBody := option_map drain (ReqBody req);
                     lastResponse := None; lastError := None;
                     errLog := []; clock := now |} eq_refl) as H.
    destruct (retryLoop (setKeepLog k' c) env ob _ 0 _) as [[res1 evs1] st1].
    destruct (retryLoop c env ob _ 0 _) as [[res2 evs2] st2].
    simpl in *. destruct H as (H1 & H2 & H3).
    split; [|exact H1]. rewrite H2. f_equal.
    unfold dropStateLog in H3. injection H3 as Hb _ _ _. rewrite Hb.
    reflexivity. }
  destruct (Hdrop k) as [Hs Hr]. split; [exact Hs|]. split; [exact Hr|].
  destruct (Hdrop false) as [_ Hf]. rewrite <- Hf.
  destruct (Do_inversion (setKeepLog false c) env now req) as (Ha & _).
  destruct (fst (Do (setKeepLog false c) env now req))
    as [rsp [[e|f]|]| |]; try reflexivity.
  destruct (Ha rsp f eq_refl) as (_ & _ & _ & _ & _ & _ & Hlen).
  simpl in Hlen. destruct f as [n l last]. simpl in *.
  destruct l; [reflexivity|discriminate].
Qed.

(** ** The waits asked for *)

Lemma requestedWait_close evs b : requestedWait (evs ++ closeBody b) = requestedWait evs.
Proof.
  induction evs as [|e evs IH]; simpl.
  - destruct b; reflexivity.
  - destruct e; rewrite IH; reflexivity.
Qed.

(** In range, a delay lies between two thirds and four thirds of its
    base. *)
Lemma backoff_bounds (draw i factor d : Z) :
  0 <= i ->
  3 <= baseDelay i factor <= MaxBase ->
  expJitterBackOff draw i factor = Some d ->
  minDelay i factor <= d
  /\ 2 * baseDelay i factor * Millisecond <= 3 * d
  /\ 3 * d <= 4 * baseDelay i factor * Millisecond.
Proof.
  intros Hi Hb H. rewrite expJitterBackOff_no_wrap in H by assumption.
  unfold minDelay. set (b := baseDelay i factor) in *.
  pose proof (quot3_bounds b) as [Hq _]. specialize (Hq ltac:(lia)).
  pose proof (Z.mod_pos_bound draw (2 * Z.quot b 3) ltac:(lia)) as Hr.
  set (r := draw mod (2 * Z.quot b 3)) in *. set (q := Z.quot b 3) in *.
  assert (E : d = (b + (r - q)) * Millisecond) by congruence.
  rewrite E. unfold Millisecond, Microsecond, Nanosecond. lia.
Qed.

Section Waiting.

Variable c : FailAwareHTTPClient.
Variable env : Env.
Variable originalBody : option (list Byte.byte).

Hypothesis in_range : backOffInRange c.

Lemma retryLoop_total_wait fuel r st :
  let N := MaxRetries (options c) in
  let q := Z.quot (BackOffDelayFactor (options c)) Millisecond in
  let evs := snd (fst (retryLoop c env originalBody fuel r st)) in
  (Z.to_nat (N - r) <= fuel)%nat ->
  0 <= r <= N ->
  (forall i, r <= i < N -> retryable (outcome (env i))) ->
  2 * ((2 ^ N - 2 ^ r) * q) * Millisecond <= 3 * requestedWait evs
  /\ 3 * requestedWait evs <= 4 * ((2 ^ N - 2 ^ r) * q) * Millisecond.
Proof using in_range.
  intros N q. cbv zeta. revert fuel r st.
  apply (retryLoop_induction c env originalBody
           (fun r st x =>
              0 <= r <= N ->
              (forall i, r <= i < N -> retryable (outcome (env i))) ->
              2 * ((2 ^ N - 2 ^ r) * q) * Millisecond
              <= 3 * requestedWait (snd (fst x))
              /\ 3 * requestedWait (snd (fst x))
                 <= 4 * ((2 ^ N - 2 ^ r) * q) * Millisecond)); simpl snd; simpl fst.
  - intros r st Hr Hr' _. assert (r = N) as -> by (fold N in Hr; lia).
    rewrite Z.sub_diag. simpl. lia.
  - intros r st _ Hn. destruct (classify_total (outcome (env r))); congruence.
  - intros r st Hr Ht Hr0 Hall.
    specialize (Hall r ltac:(fold N in Hr; lia)). unfold retryable in Hall.
    congruence.
  - intros r st Hr _ Hb Hr0.
    destruct (backoff_defined c r (draw (env r)) in_range ltac:(lia))
      as (d & Hd & _).
    congruence.
  - intros r st jitter res evs st3 Hr Hcl Hb IH Hr0 Hall.
    fold N in Hr.
    destruct (IH ltac:(lia) ltac:(intros i Hi; apply Hall; lia)) as [Hlo Hhi].
    pose proof (backoff_bounds (draw (env r)) r _ jitter ltac:(lia)
                  (backOffInRange_at c r in_range ltac:(fold N; lia)) Hb)
      as (_ & Hjlo & Hjhi).
    unfold baseDelay in Hjlo, Hjhi. fold q in Hjlo, Hjhi.
    assert (Hp : 2 ^ (r + 1) = 2 * 2 ^ r).
    { rewrite Z.pow_add_r by lia. change (2 ^ 1) with 2. ring. }
    rewrite Hp in Hlo, Hhi.
    change (requestedWait (EvSend r (bodyFor originalBody st) :: EvWait r jitter
                         :: EvDebug (r + 1) jitter :: evs))
      with (jitter + requestedWait evs).
    set (A := 2 ^ N) in *. set (B := 2 ^ r) in *.
    set (T := requestedWait evs) in *.
    unfold Millisecond, Microsecond, Nanosecond in *. nia.
Qed.

End Waiting.

(** X14.  When every one of the [MaxRetries = N >= 1] attempts is retryable
    (and the backoff is in range), the durations [Do] hands to
    [time.After] add up to between two thirds and four thirds of
    [(2^N - 1)] times the factor (in whole milliseconds), whatever the
    random source gives; the waits themselves last at least as long as
    the durations they are given. *)
Theorem Do_requested_wait_on_exhaustion c env now req ob :
  let N := MaxRetries (options c) in
  let q := Z.quot (BackOffDelayFactor (options c)) Millisecond in
  backOffInRange c ->
  1 <= N ->
  readBody (ReqBody req) = (ob, None) ->
  (forall i, 0 <= i < N -> retryable (outcome (env i))) ->
  2 * ((2 ^ N - 1) * q) * Millisecond <= 3 * requestedWait (snd (Do c env now req))
  /\ 3 * requestedWait (snd (Do c env now req))
     <= 4 * ((2 ^ N - 1) * q) * Millisecond.
Proof.
  intros N q Hc HN Hread Hall.
  rewrite (Do_read_ok c env now req ob Hread). cbv zeta. simpl snd.
  rewrite requestedWait_close.
  pose proof (retryLoop_total_wait c env ob Hc (Z.to_nat N) 0
                {| reqBody := option_map drain (ReqBody req);
                   lastResponse := None; lastError := None;
                   errLog := []; clock := now |}) as H.
  cbv zeta in H. fold N in H. fold q in H.
  specialize (H ltac:(lia) ltac:(lia) Hall).
  change (2 ^ 0) with 1 in H. exact H.
Qed.

Lemma Do_requested_wait_on_exhaustion_witness :
  2 * ((2 ^ 3 - 1) * 1000) * Millisecond
  <= 3 * requestedWait (snd (Do NewDefaultClient
                           (constEnv (Failed None contextCanceled)) 0
                           (request None))).
Proof.
  apply (Do_requested_wait_on_exhaustion NewDefaultClient
           (constEnv (Failed None contextCanceled)) 0 (request None) None).
  - exact NewDefaultClient_in_range.
  - vm_compute. discriminate.
  - reflexivity.
  - intros i _. reflexivity.
Defined.

(** ** The timestamps of the log *)

Section LogTimes.

Variable c : FailAwareHTTPClient.
Variable env : Env.
Variable originalBody : option (list Byte.byte).

Hypothesis in_range : backOffInRange c.

Lemma retryLoop_log_spaced fuel r st :
  let factor := BackOffDelayFactor (options c) in
  let x := retryLoop c env originalBody fuel r st in
  (Z.to_nat (MaxRetries (options c) - r) <= fuel)%nat ->
  0 <= r ->
  (forall rsp f, fst (fst x) = Returned rsp (Some (FailAware f)) ->
     Errors f = errLog (snd x))
  /\ exists l,
       errLog (snd x) = errLog st ++ l
       /\ (KeepLog (options c) = false -> l = [])
       /\ logSpaced factor r l
       /\ Forall (fun e => clock st <= timestampStarted e
                           <= timestampFinished e) l.
Proof using in_range.
  intros factor. cbv zeta. revert fuel r st.
  apply (retryLoop_induction c env originalBody
           (fun r st x =>
              0 <= r ->
              (forall rsp f, fst (fst x) = Returned rsp (Some (FailAware f)) ->
                 Errors f = errLog (snd x))
              /\ exists l,
                   errLog (snd x) = errLog st ++ l
                   /\ (KeepLog (options c) = false -> l = [])
                   /\ logSpaced factor r l
                   /\ Forall (fun e => clock st <= timestampStarted e
                                       <= timestampFinished e) l));
    simpl fst; simpl snd.
  - intros r st _ _. split.
    + intros rsp f. unfold resultOf. destruct (lastError st); [|discriminate].
      intros H. injection H as _ <-. reflexivity.
    + exists []. rewrite app_nil_r. repeat split; constructor.
  - intros r st _ Hn. destruct (classify_total (outcome (env r))); congruence.
  - intros r st Hr Ht _. split.
    + intros rsp f. unfold resultOf. destruct (lastError _); [|discriminate].
      intros H. injection H as _ <-. reflexivity.
    + simpl. destruct (KeepLog (options c)).
      * eexists [_]. split; [reflexivity|]. split; [discriminate|].
        split; [simpl; auto|]. constructor; [simpl; lia|constructor].
      * exists []. rewrite app_nil_r. repeat split; constructor.
  - intros r st Hr _ Hb Hr0.
    destruct (backoff_defined c r (draw (env r)) in_range ltac:(lia))
      as (d & Hd & _).
    congruence.
  - intros r st jitter res evs st3 Hr Hcl Hb IH Hr0.
    destruct (IH ltac:(lia)) as (Herr & l' & Hlog & Hkeep & Hsp & Hfrom).
    split; [exact Herr|].
    pose proof (backoff_bounds (draw (env r)) r _ jitter ltac:(lia)
                  (backOffInRange_at c r in_range ltac:(lia)) Hb)
      as (Hmin & _ & _).
    fold factor in Hmin.
    simpl in Hlog, Hfrom.
    destruct (KeepLog (options c)).
    + eexists (_ :: l'). rewrite Hlog, <- app_assoc.
      split; [reflexivity|]. split; [discriminate|]. split.
      * simpl. split; [|exact Hsp].
        destruct l' as [|e2 l'']; [exact I|].
        inversion Hfrom as [|? ? He2 _]; subst. simpl. lia.
      * constructor; [simpl; lia|].
        eapply Forall_impl; [|exact Hfrom]. simpl. intros a Ha. lia.
    + exists []. rewrite (Hkeep eq_refl) in Hlog. rewrite Hlog.
      repeat split; constructor.
Qed.

End LogTimes.

(** X15.  In the log of a failure [Do] returns (the backoff being in
    range), every attempt started at or after the call and finished no
    earlier than it started, and between the end of an attempt and the
    start of the next lies at least the least backoff of its index, the
    base delay less a third. *)
Theorem Do_log_is_spaced c env now req rsp f :
  backOffInRange c ->
  fst (Do c env now req) = Returned rsp (Some (FailAware f)) ->
  logSpaced (BackOffDelayFactor (options c)) 0 (Errors f)
  /\ Forall (fun e => now <= timestampStarted e <= timestampFinished e)
       (Errors f).
Proof.
  intros Hc. unfold Do.
  destruct (readBody (ReqBody req)) as [ob [e|]]; [discriminate|].
  pose proof (retryLoop_log_spaced c env ob Hc
                (Z.to_nat (MaxRetries (options c))) 0
                {| reqBody := option_map drain (ReqBody req);
                   lastResponse := None; lastError := None;
                   errLog := []; clock := now |}) as H.
  cbv zeta in H. specialize (H ltac:(lia) ltac:(lia)).
  destruct (retryLoop c env ob _ 0 _) as [[res evs] st]. simpl in *.
  destruct H as (Herr & l & Hlog & _ & Hsp & Hfrom).
  intros Hres. rewrite (Herr rsp f Hres), Hlog. split; assumption.
Qed.

Lemma Do_log_is_spaced_witness :
  logSpaced (5 * Millisecond) 0
    [errEntryNow (Some dialError) None 0 1000;
     errEntryNow (Some dialError) None 4001000 4002000;
     errEntryNow (Some dialError) None 11002000 11003000].
Proof.
  destruct (Do_log_is_spaced (NewClient optionsWithMinTimeouts)
              (constEnv (Failed None dialError)) 0 (request (Some dummyBody))
              None
              {| Retries := 3;
                 Errors :=
                   [errEntryNow (Some dialError) None 0 1000;
                    errEntryNow (Some dialError) None 4001000 4002000;
                    errEntryNow (Some dialError) None 11002000 11003000];
                 LastError := Some dialError |})
    as [H _].
  - exact optionsWithMinTimeouts_in_range.
  - vm_compute. reflexivity.
  - exact H.
Defined.

(** ** [Post] *)




(** ** Clients whose backoff panics *)

Lemma Do_returns_no_io_error_after_reading c env now req ob rsp e :
  readBody (ReqBody req) = (ob, None) ->
  fst (Do c env now req) <> Returned rsp (Some (IOError e)).
Proof.
  intros Hread. rewrite (Do_read_ok c env now req ob Hread). cbv zeta.
  simpl fst.
  apply (retryLoop_inversion c env ob (Z.to_nat (MaxRetries (options c))) 0);
    [lia|apply entered_first; reflexivity].
Qed.

(** X17.  A client with a [MaxRetries] of 64 or more cannot come to the
    end of its attempts: when every attempt is retryable, [Do] panics in a
    backoff computation, at index 63 at the latest, instead of returning
    the last response or a [FailAwareHTTPError]. *)
Theorem Do_panics_with_64_retries c env now req ob :
  64 <= MaxRetries (options c) ->
  readBody (ReqBody req) = (ob, None) ->
  (forall i, 0 <= i < MaxRetries (options c) -> retryable (outcome (env i))) ->
  fst (Do c env now req) = Panicked.
Proof.
  intros HN Hread Hall.
  destruct (Do_inversion c env now req) as (Ha & Hb & _).
  destruct (fst (Do c env now req)) as [rsp [[e|f]|]| |] eqn:E.
  - exfalso. exact (Do_returns_no_io_error_after_reading _ _ _ _ _ _ _ Hread E).
  - exfalso. destruct (Ha rsp f eq_refl) as (_ & _ & _ & _ & _ & Hdef & _).
    destruct (Hdef 63 ltac:(lia)) as [_ Hd]. apply Hd.
    apply backoff_panics_at_63.
  - exfalso.
    destruct (Hb rsp eq_refl) as [[Hle _]|(k & rsp' & Hk & _ & _ & _ & Hlast)];
      [lia|].
    destruct Hlast as [Ht|[_ Hdef]].
    + specialize (Hall k Hk). unfold retryable in Hall. congruence.
    + destruct (Hdef 63 ltac:(lia)) as [_ Hd]. apply Hd.
      apply backoff_panics_at_63.
  - reflexivity.
  - exfalso. exact (Do_fuel c env now req E).
Qed.

Lemma Do_panics_with_64_retries_witness :
  fst (Do (NewClient {| MaxRetries := 64; Timeout := 0;
                        BackOffDelayFactor := 4 * Millisecond;
                        KeepLog := false |})
         (constEnv (Failed None dialError)) 0 (request None))
  = Panicked.
Proof.
  apply (Do_panics_with_64_retries _ _ 0 (request None) None).
  - vm_compute. discriminate.
  - reflexivity.
  - intros i _. reflexivity.
Defined.

(** X18.  With a backoff factor below three milliseconds (a negative one
    included), a first attempt that is retryable is the only one: whatever
    [MaxRetries >= 1] is, [Do] panics in the backoff computation after it,
    without a wait and without a second attempt. *)
Theorem Do_panics_after_first_attempt c env now req ob :
  1 <= MaxRetries (options c) ->
  min_int <= BackOffDelayFactor (options c) < 3 * Millisecond ->
  readBody (ReqBody req) = (ob, None) ->
  retryable (outcome (env 0)) ->
  fst (Do c env now req) = Panicked
  /\ (forall i, attemptAt i (snd (Do c env now req)) <-> i = 0)
  /\ (forall i, ~ waitAfter i (snd (Do c env now req))).
Proof.
  intros HN Hf Hread Hret.
  assert (Hq : min_int <= Z.quot (BackOffDelayFactor (options c)) Millisecond < 3).
  { unfold min_int, Millisecond, Microsecond, Nanosecond in *.
    rewrite pow2_63 in *.
    set (x := BackOffDelayFactor (options c)) in *.
    pose proof (Z.quot_rem x 1000000 ltac:(lia)) as Hqr.
    change (1000 * (1000 * 1)) with 1000000 in *.
    destruct (Z_lt_le_dec x 0) as [Hn|Hn].
    - pose proof (Z.rem_bound_pos_neg x 1000000 ltac:(lia) ltac:(lia)). lia.
    - pose proof (Z.rem_bound_pos x 1000000 ltac:(lia) ltac:(lia)). lia. }
  assert (Hb : expJitterBackOff (draw (env 0)) 0 (BackOffDelayFactor (options c))
               = None).
  { apply backoff_none_iff_bound; [lia| |].
    - unfold baseDelay, in_range, max_int. change (2 ^ 0) with 1.
      rewrite Z.mul_1_l. rewrite pow2_63. lia.
    - unfold baseDelay. change (2 ^ 0) with 1. rewrite Z.mul_1_l.
      pose proof (quot3_bounds
                    (Z.quot (BackOffDelayFactor (options c)) Millisecond))
        as [_ Hlt].
      specialize (Hlt ltac:(lia)). lia. }
  rewrite (Do_read_ok c env now req ob Hread). cbv zeta. simpl fst. simpl snd.
  replace (Z.to_nat (MaxRetries (options c)))
    with (S (Z.to_nat (MaxRetries (options c) - 1))) by lia.
  rewrite retryLoop_iter by lia. cbv zeta.
  unfold retryable in Hret. rewrite Hret, Hb. cbv beta iota.
  simpl fst. simpl snd.
  split; [reflexivity|]. split.
  - intros i. rewrite attemptAt_close. unfold attemptAt. simpl. split.
    + intros [b [H|[]]]. injection H as <- _. reflexivity.
    + intros ->. eauto.
  - intros i. rewrite waitAfter_close. intros [d [H|[]]]. discriminate.
Qed.

Lemma Do_panics_after_first_attempt_witness :
  fst (Do (NewClient {| MaxRetries := 5; Timeout := 0;
                        BackOffDelayFactor := 2 * Millisecond;
                        KeepLog := false |})
         (constEnv (Responded {| StatusCode := 503 |})) 0
         (request (Some dummyBody)))
  = Panicked.
Proof.
  apply (Do_panics_after_first_attempt _ _ 0 (request (Some dummyBody))
           (Some dummyBytes)).
  - vm_compute. discriminate.
  - vm_compute. split; [discriminate|reflexivity].
  - reflexivity.
  - reflexivity.
Defined.
